(** * generate_html.py: a shallow embedding of the static site generator

    The script reads YAML front matter from [areas/<area>/metadata/*.md],
    and writes an index page per area, a page per route and a root index.

    Conventions of the embedding.
    - A Python [str] is a sequence of Unicode code points: [pystr := list N].
      Literals are written as Rocq strings (UTF-8) and decoded by [u].
    - A value built by [yaml.safe_load] is a [value]: null, bool, int, float,
      str, sequence or mapping (keys of a mapping are scalars, since PyYAML
      refuses unhashable keys).  Timestamps, binaries and sets are outside
      the model.
    - An exception is a [Raise e] result; the driver threads the list of
      files written so far through every step, so that what is on disk when
      a run aborts can be read off the result.
    - The directory tree is a [node]; the order of the entries of a [Dir] is
      the order in which the operating system enumerates them.  The text of
      a [File] is what [f.read()] returns for it (decoded, newlines
      translated).  Paths are those of a POSIX system: names are compared
      and matched case-sensitively.
    - Library functions whose definition depends on the Unicode database or
      on floating-point printing are parameters of the development:
      [yaml.safe_load], [float.__repr__], [str.__repr__], [str.capitalize].
      What a property needs of one of them is a hypothesis of the property.

    Limits of the model.
    - Writing a file always succeeds: failures of the file system (a
      directory where the file should go, permissions, a full disk), of the
      encoder (a lone surrogate) and of the printing of integers of more
      than 4300 digits are not modelled.  A run of the script that
      completes is a run of the model that completes, with the same files;
      the properties of the driver are stated for runs that complete, or
      are about the text of a page.
    - Paths are compared component by component, and [..] is not resolved.
      Where a property depends on which file a path names, it assumes that
      area names and slugs are single path components. *)

From Stdlib Require Import List ZArith NArith Bool Ascii String Lia.
From Stdlib Require Import Permutation Sorted DecimalString DecimalZ DecimalPos.
From Stdlib Require Import SpecFloat.
Import ListNotations.

Set Warnings "-register-all".

Local Open Scope N_scope.
Local Open Scope list_scope.

(** ** Python strings *)

Definition pystr := list N.

(** UTF-8 decoding of a Rocq string literal.  Literals are well formed, so
    truncated sequences are not treated specially. *)
Fixpoint u (s : string) : pystr :=
  match s with
  | EmptyString => []
  | String c r =>
      let b := N_of_ascii c in
      if b <? 128 then b :: u r
      else if b <? 224 then
        match r with
        | String c2 r2 => ((b - 192) * 64 + (N_of_ascii c2 - 128)) :: u r2
        | EmptyString => [b]
        end
      else if b <? 240 then
        match r with
        | String c2 (String c3 r3) =>
            ((b - 224) * 4096 + (N_of_ascii c2 - 128) * 64
             + (N_of_ascii c3 - 128)) :: u r3
        | _ => [b]
        end
      else
        match r with
        | String c2 (String c3 (String c4 r4)) =>
            ((b - 240) * 262144 + (N_of_ascii c2 - 128) * 4096
             + (N_of_ascii c3 - 128) * 64 + (N_of_ascii c4 - 128)) :: u r4
        | _ => [b]
        end
  end.

(** The characters that cannot be written inside a literal. *)
Definition nl : pystr := [10].
Definition dq : pystr := [34].
Definition cp_dash : N := 45.
Definition cp_slash : N := 47.

Fixpoint str_eqb (a b : pystr) : bool :=
  match a, b with
  | [], [] => true
  | x :: a', y :: b' => (x =? y) && str_eqb a' b'
  | _, _ => false
  end.

(** [s.startswith(p)] *)
Fixpoint startswith (p s : pystr) : bool :=
  match p, s with
  | [], _ => true
  | x :: p', y :: s' => (x =? y) && startswith p' s'
  | _ :: _, [] => false
  end.

(** [s.endswith(p)] *)
Definition endswith (p s : pystr) : bool := startswith (rev p) (rev s).

(** [needle in hay] *)
Fixpoint contains (needle hay : pystr) : bool :=
  startswith needle hay ||
  match hay with
  | [] => false
  | _ :: hay' => contains needle hay'
  end.

(** [sep.join(items)] *)
Fixpoint join (sep : pystr) (items : list pystr) : pystr :=
  match items with
  | [] => []
  | [x] => x
  | x :: rest => x ++ sep ++ join sep rest
  end.

(** [s.replace(chr(c), by)] for a pattern of one character. *)
Definition replace1 (c : N) (by_ : pystr) (s : pystr) : pystr :=
  flat_map (fun x => if x =? c then by_ else [x]) s.

(** [s.split(chr(c))] *)
Fixpoint split1 (c : N) (s : pystr) : list pystr :=
  match s with
  | [] => [[]]
  | x :: s' =>
      if x =? c then [] :: split1 c s'
      else match split1 c s' with
           | [] => [[x]]
           | w :: ws => (x :: w) :: ws
           end
  end.

(** [str.isspace] for one character: the table of CPython's
    [_PyUnicode_IsWhitespace]. *)
Definition isspace (c : N) : bool :=
  ((9 <=? c) && (c <=? 13)) || ((28 <=? c) && (c <=? 32))
  || (c =? 133) || (c =? 160) || (c =? 5760)
  || ((8192 <=? c) && (c <=? 8202))
  || (c =? 8232) || (c =? 8233) || (c =? 8239) || (c =? 8287) || (c =? 12288).

Fixpoint dropwhile (p : N -> bool) (s : pystr) : pystr :=
  match s with
  | [] => []
  | x :: s' => if p x then dropwhile p s' else s
  end.

(** [s.strip(...)]: characters satisfying [p] removed from both ends. *)
Definition strip_by (p : N -> bool) (s : pystr) : pystr :=
  rev (dropwhile p (rev (dropwhile p s))).

(** [s.strip()] *)
Definition strip (s : pystr) : pystr := strip_by isspace s.

(** [s.strip("-")] *)
Definition strip_dashes (s : pystr) : pystr := strip_by (N.eqb cp_dash) s.

(** Lexicographic order on code points: [a <= b] on Python strings. *)
Fixpoint str_leb (a b : pystr) : bool :=
  match a, b with
  | [], _ => true
  | _ :: _, [] => false
  | x :: a', y :: b' => (x <? y) || ((x =? y) && str_leb a' b')
  end.

(** Decimal rendering of an integer, [int.__repr__]. *)
Definition ascii_text (s : string) : pystr :=
  map N_of_ascii (list_ascii_of_string s).

Definition int_repr (z : Z) : pystr :=
  ascii_text (NilZero.string_of_int (Z.to_int z)).

(** Reading a JSON integer literal back. *)
Fixpoint to_ascii_string (s : pystr) : option string :=
  match s with
  | [] => Some EmptyString
  | c :: s' =>
      if c <? 256 then option_map (String (ascii_of_N c)) (to_ascii_string s')
      else None
  end.

Definition read_int (s : pystr) : option Z :=
  match to_ascii_string s with
  | Some t => option_map Z.of_int (NilZero.int_of_string t)
  | None => None
  end.

(** ** Numbers as the script of a page reads them

    The embedded data is read by the browser as part of a script, where a
    number literal denotes the double nearest to its decimal value. *)

(** The value of a run of decimal digits after the digits of value [acc];
    [None] when a character is not a digit. *)
Fixpoint read_digits (acc : Z) (s : pystr) : option Z :=
  match s with
  | [] => Some acc
  | c :: rest =>
      if (48 <=? c) && (c <=? 57)
      then read_digits (10 * acc + Z.of_N (c - 48)) rest
      else None
  end.

(** [s] up to the first character satisfying [p], and what follows that
    character when there is one. *)
Fixpoint break_at (p : N -> bool) (s : pystr) : pystr * option pystr :=
  match s with
  | [] => ([], None)
  | c :: rest =>
      if p c then ([], Some rest)
      else let (a, b) := break_at p rest in (c :: a, b)
  end.

(** The integer part of a number literal: [0], or digits that do not start
    with [0]. *)
Definition integer_part (s : pystr) : option Z :=
  match s with
  | [] => None
  | [48] => Some 0%Z
  | 48 :: _ => None
  | _ => read_digits 0 s
  end.

Definition nonempty_digits (s : pystr) : option Z :=
  match s with
  | [] => None
  | _ => read_digits 0 s
  end.

(** What follows the [e] of a number literal: digits with an optional
    sign. *)
Definition exponent_part (s : pystr) : option Z :=
  match s with
  | 45 :: t => option_map Z.opp (nonempty_digits t)
  | 43 :: t => nonempty_digits t
  | _ => nonempty_digits s
  end.

(** A number literal without its sign, [int frac? exp?] in the grammar of
    JSON, as the pair [(m, e)] of the decimal number [m * 10 ^ e]. *)
Definition read_decimal (s : pystr) : option (Z * Z) :=
  let (mantissa, expo) := break_at (fun c => (c =? 101) || (c =? 69)) s in
  let (ip, fp) := break_at (N.eqb 46) mantissa in
  match integer_part ip,
        match fp with
        | None => Some []
        | Some [] => None
        | Some t => Some t
        end,
        match expo with
        | None => Some 0%Z
        | Some t => exponent_part t
        end with
  | Some _, Some frac, Some e =>
      match read_digits 0 (ip ++ frac) with
      | Some m => Some (m, (e - Z.of_nat (List.length frac))%Z)
      | None => None
      end
  | _, _, _ => None
  end.

(** The double nearest to [m * 10 ^ e], ties to even, with the sign
    [sign]: the quotient of two integers, rounded once. *)
Definition nearest_double (sign : bool) (m e : Z) : spec_float :=
  match m with
  | Zpos _ =>
      let num := if (0 <=? e)%Z then (m * 10 ^ e)%Z else m in
      let den := if (0 <=? e)%Z then 1%Z else (10 ^ (- e))%Z in
      let '(q, e2, l) := SFdiv_core_binary 53 1024 num 0 den 0 in
      binary_round_aux 53 1024 sign q e2 l
  | _ => S754_zero sign
  end.

(** The number that the text of a number denotes in a script: a number
    literal, with a minus sign in front or not, or one of the names [NaN],
    [Infinity] and [-Infinity] that [json.dumps] prints.  Anything else,
    a quoted text in particular, is not a number. *)
Definition read_float (s : pystr) : option spec_float :=
  if str_eqb s [78; 97; 78] then Some S754_nan
  else if str_eqb s [73; 110; 102; 105; 110; 105; 116; 121]
  then Some (S754_infinity false)
  else
    match s with
    | 45 :: t =>
        if str_eqb t [73; 110; 102; 105; 110; 105; 116; 121]
        then Some (S754_infinity true)
        else option_map (fun me => nearest_double true (fst me) (snd me))
               (read_decimal t)
    | _ =>
        option_map (fun me => nearest_double false (fst me) (snd me))
          (read_decimal s)
    end.

(** Zeros and the other finite doubles. *)
Definition is_finite (f : spec_float) : bool :=
  match f with
  | S754_zero _ | S754_finite _ _ _ => true
  | S754_infinity _ | S754_nan => false
  end.

(** ** Values built by the YAML loader *)

(** Keys of a mapping. *)
Inductive scalar : Type :=
| KNull
| KBool (b : bool)
| KInt (z : Z)
| KFloat (f : spec_float)
| KStr (s : pystr).

Inductive value : Type :=
| VNull
| VBool (b : bool)
| VInt (z : Z)
| VFloat (f : spec_float)
| VStr (s : pystr)
| VList (items : list value)
| VDict (items : list (scalar * value)).

(** ** Exceptions *)

Inductive exn : Type :=
| YAMLError                       (* raised by [yaml.safe_load] *)
| KeyError (key : pystr)          (* [d[key]] on a dict without [key] *)
| TypeError                       (* subscripting or iterating a wrong type *)
| AttributeError                  (* a method the value does not have *)
| IsADirectoryError               (* [open] on a directory *)
| FileNotFoundError
| NotADirectoryError.

Inductive result (A : Type) : Type :=
| Ok (a : A)
| Raise (e : exn).
Arguments Ok {A} a.
Arguments Raise {A} e.

Definition bind {A B} (m : result A) (k : A -> result B) : result B :=
  match m with
  | Ok a => k a
  | Raise e => Raise e
  end.

Notation "x <- m ;; k" := (bind m (fun x => k))
  (at level 61, m at next level, right associativity).

(** A list comprehension whose body may raise: the first exception wins. *)
Fixpoint map_result {A B} (f : A -> result B) (l : list A) : result (list B) :=
  match l with
  | [] => Ok []
  | a :: l' =>
      b <- f a ;;
      bs <- map_result f l' ;;
      Ok (b :: bs)
  end.

(** ** Dictionaries *)

Definition key_is (k : pystr) (s : scalar) : bool :=
  match s with
  | KStr s' => str_eqb s' k
  | _ => false
  end.

Fixpoint dict_find (k : pystr) (d : list (scalar * value)) : option value :=
  match d with
  | [] => None
  | (s, v) :: d' => if key_is k s then Some v else dict_find k d'
  end.

(** [r[k]] *)
Definition subscript (r : value) (k : pystr) : result value :=
  match r with
  | VDict d =>
      match dict_find k d with
      | Some v => Ok v
      | None => Raise (KeyError k)
      end
  | _ => Raise TypeError
  end.

(** [r.get(k)]: [None] of Python is [VNull]; the option tells an absent key
    from a key bound to null. *)
Definition get_opt (r : value) (k : pystr) : result (option value) :=
  match r with
  | VDict d => Ok (dict_find k d)
  | _ => Raise AttributeError
  end.

Definition or_none (o : option value) : value :=
  match o with
  | Some v => v
  | None => VNull
  end.

(** [r.get(k)] *)
Definition get (r : value) (k : pystr) : result value :=
  o <- get_opt r k ;; Ok (or_none o).

(** [r.get(k, default)] *)
Definition get_default (r : value) (k : pystr) (default : value) : result value :=
  o <- get_opt r k ;;
  Ok match o with
     | Some v => v
     | None => default
     end.

(** ** Paths and the directory tree *)

Inductive node : Type :=
| File (text : pystr)
| Dir (entries : list (pystr * node)).

Fixpoint lookup_entry (name : pystr) (entries : list (pystr * node)) : option node :=
  match entries with
  | [] => None
  | (n, x) :: rest => if str_eqb n name then Some x else lookup_entry name rest
  end.

(** A [pathlib] path: whether it is absolute, and its components.  Paths
    that are not absolute are relative to the project root. *)
Record path : Type := mkpath { absolute : bool; parts : list pystr }.

Definition is_component (s : pystr) : bool :=
  negb (str_eqb s []) && negb (str_eqb s [46]).

(** [p / s]: an operand starting with a slash replaces the path; empty and
    [.] components are dropped. *)
Definition joinpath (p : path) (s : pystr) : path :=
  let comps := filter is_component (split1 cp_slash s) in
  if startswith [cp_slash] s then mkpath true comps
  else mkpath (absolute p) (parts p ++ comps).

Definition path_eqb (p q : path) : bool :=
  Bool.eqb (absolute p) (absolute q)
  && ((List.length (parts p) =? List.length (parts q))%nat
      && forallb (fun ab => str_eqb (fst ab) (snd ab)) (combine (parts p) (parts q))).

Definition project_root : path := mkpath false [].

(** The files written so far, most recent last. *)
Definition written := list (path * pystr).

(** The content of [p] on disk after the writes of [w]. *)
Fixpoint file_at (p : path) (w : written) : option pystr :=
  match w with
  | [] => None
  | (q, c) :: w' =>
      match file_at p w' with
      | Some c' => Some c'
      | None => if path_eqb q p then Some c else None
      end
  end.

(** The state of a run: what was written, and how it ended. *)
Record run : Type := mkrun { files : written; outcome : result unit }.

(** The state and exception monad of the driver. *)
Definition io (A : Type) : Type := written -> written * result A.

Definition io_ret {A} (a : A) : io A := fun w => (w, Ok a).

Definition io_bind {A B} (m : io A) (k : A -> io B) : io B :=
  fun w =>
    match m w with
    | (w', Ok a) => k a w'
    | (w', Raise e) => (w', Raise e)
    end.

Definition lift {A} (r : result A) : io A := fun w => (w, r).

Notation "x <~ m ;; k" := (io_bind m (fun x => k))
  (at level 61, m at next level, right associativity).

(** [p.write_text(text, encoding="utf-8")].  Failures of the file system
    itself (permissions, a full disk) are not modelled, and neither are the
    directories that [mkdir(parents=True, exist_ok=True)] creates. *)
Definition write_text (p : path) (text : pystr) : io unit :=
  fun w => (w ++ [(p, text)], Ok tt).

(** A [for] loop whose body may raise. *)
Fixpoint for_each {A} (l : list A) (body : A -> io unit) : io unit :=
  match l with
  | [] => io_ret tt
  | a :: l' => _ <~ body a ;; for_each l' body
  end.

Definition run_io (m : io unit) : run :=
  let (w, r) := m [] in mkrun w r.

(** ** Sorting, as [sorted] on the paths of one directory *)

(** Paths in the same directory compare as their names do. *)
Fixpoint insert_by_name (x : pystr * node) (l : list (pystr * node))
  : list (pystr * node) :=
  match l with
  | [] => [x]
  | y :: l' =>
      if str_leb (fst x) (fst y) then x :: y :: l'
      else y :: insert_by_name x l'
  end.

Fixpoint sorted (l : list (pystr * node)) : list (pystr * node) :=
  match l with
  | [] => []
  | x :: l' => insert_by_name x (sorted l')
  end.

(** [uq] decodes a literal in which the tilde stands for the double quote,
    which a Rocq literal cannot hold. *)
Definition uq (s : string) : pystr :=
  map (fun c => if c =? 126 then 34 else c) (u s).

(** ** Stand-ins for the library functions, on which the model can be run *)

Module Sample.

Fixpoint split_kv (line : pystr) : option (pystr * pystr) :=
  match line with
  | [] => None
  | c :: rest =>
      match c, rest with
      | 58, 32 :: v => Some ([], v)
      | _, _ =>
          match split_kv rest with
          | Some (k, v) => Some (c :: k, v)
          | None => None
          end
      end
  end.

Definition scalar_of (v : pystr) : value :=
  match read_int v with
  | Some z => VInt z
  | None => if str_eqb v (u "[]") then VList [] else VStr v
  end.

Fixpoint mapping_of (lines : list pystr) : option (list (scalar * value)) :=
  match lines with
  | [] => Some []
  | l :: ls =>
      if str_eqb l [] then mapping_of ls
      else match split_kv l, mapping_of ls with
           | Some (k, v), Some d => Some ((KStr k, scalar_of v) :: d)
           | _, _ => None
           end
  end.

(** A loader for flat [key: value] documents whose values are integers,
    the empty list or plain text; a line without a colon is malformed. *)
Definition safe_load (text : pystr) : option value :=
  if str_eqb text [] then Some VNull
  else option_map VDict (mapping_of (split1 10 text)).

(** [float.__repr__]: the shortest run of digits that reads back as the
    same double and, among those, the nearest to it, laid out as
    [format_float_short] does for [repr]. *)

Fixpoint count_digits (fuel : nat) (n : Z) : Z :=
  match fuel with
  | O => 0
  | S fuel' => if (n <? 10)%Z then 1 else (1 + count_digits fuel' (n / 10))%Z
  end.

(** The number of zeros between the point and the first digit of
    [num / den], which is less than one. *)
Fixpoint leading_zeros (fuel : nat) (num den : Z) : Z :=
  match fuel with
  | O => 0
  | S fuel' =>
      if (den <=? 10 * num)%Z then 0
      else (1 + leading_zeros fuel' (10 * num) den)%Z
  end.

(** The position [k] of the decimal point: [10^(k-1) <= num/den < 10^k].
    A double has at most 309 digits before the point and at most 323 zeros
    after it. *)
Definition decimal_point (num den : Z) : Z :=
  if (den <=? num)%Z then count_digits 400 (num / den)
  else (- leading_zeros 400 num den)%Z.

Definition float_eqb (a b : spec_float) : bool :=
  match a, b with
  | S754_finite s m e, S754_finite s' m' e' =>
      Bool.eqb s s' && (m =? m')%positive && (e =? e')%Z
  | _, _ => false
  end.

(** The decimal of [n] digits nearest to [num / den] among those that read
    back as [f], if there is one: its digits as a number, and the exponent
    of its last digit. *)
Definition digits_at (f : spec_float) (num den k n : Z) : option (Z * Z) :=
  let e := (k - n)%Z in
  let num' := if (0 <=? e)%Z then num else (num * 10 ^ (- e))%Z in
  let den' := if (0 <=? e)%Z then (den * 10 ^ e)%Z else den in
  let lo := (num' / den')%Z in
  let rem := (num' mod den')%Z in
  let hi := (lo + 1)%Z in
  match float_eqb (nearest_double false lo e) f,
        float_eqb (nearest_double false hi e) f with
  | true, true =>
      match (2 * rem ?= den')%Z with
      | Lt => Some (lo, e)
      | Gt => Some (hi, e)
      | Eq => Some (if Z.even lo then lo else hi, e)
      end
  | true, false => Some (lo, e)
  | false, true => Some (hi, e)
  | false, false => None
  end.

(** The first of [n], [n + 1], ... digits that are enough; seventeen always
    are, and what is left when the fuel runs out is the double rounded to
    seventeen digits. *)
Fixpoint shortest_digits (fuel : nat) (f : spec_float) (num den k n : Z)
  : Z * Z :=
  match fuel with
  | O =>
      let e := (k - 17)%Z in
      let num' := if (0 <=? e)%Z then num else (num * 10 ^ (- e))%Z in
      let den' := if (0 <=? e)%Z then (den * 10 ^ e)%Z else den in
      (((2 * num' + den') / (2 * den'))%Z, e)
  | S fuel' =>
      match digits_at f num den k n with
      | Some de => de
      | None => shortest_digits fuel' f num den k (n + 1)
      end
  end.

Fixpoint strip_zeros (fuel : nat) (d e : Z) : Z * Z :=
  match fuel with
  | O => (d, e)
  | S fuel' =>
      if ((d mod 10 =? 0) && (0 <? d))%Z then strip_zeros fuel' (d / 10) (e + 1)
      else (d, e)
  end.

Definition zeros (n : Z) : pystr := repeat 48 (Z.to_nat n).

(** The digits [ds] with the point after the first [decpt] of them; in
    exponent notation when [decpt <= -4] or [decpt > 16]. *)
Definition format_repr (ds : pystr) (decpt : Z) : pystr :=
  let n := Z.of_nat (List.length ds) in
  if ((decpt <=? -4) || (16 <? decpt))%Z then
    let x := (decpt - 1)%Z in
    firstn 1 ds
    ++ (if (1 <? n)%Z then [46] ++ skipn 1 ds else [])
    ++ [101] ++ (if (x <? 0)%Z then [45] else [43])
    ++ (if (Z.abs x <? 10)%Z then [48] else []) ++ int_repr (Z.abs x)
  else if (decpt <=? 0)%Z then
    u "0." ++ zeros (- decpt) ++ ds
  else if (n <=? decpt)%Z then
    ds ++ zeros (decpt - n) ++ u ".0"
  else
    firstn (Z.to_nat decpt) ds ++ [46] ++ skipn (Z.to_nat decpt) ds.

(** Exact on the doubles: the finite values [m * 2 ^ e] with the mantissa
    and exponent of binary64. *)
Definition float_repr (f : spec_float) : pystr :=
  match f with
  | S754_zero s => (if s then u "-0.0" else u "0.0")
  | S754_infinity s => (if s then u "-inf" else u "inf")
  | S754_nan => u "nan"
  | S754_finite s m e =>
      let num := if (0 <=? e)%Z then (Zpos m * 2 ^ e)%Z else Zpos m in
      let den := if (0 <=? e)%Z then 1%Z else (2 ^ (- e))%Z in
      let k := decimal_point num den in
      let (d0, e0) := shortest_digits 17 (S754_finite false m e) num den k 1 in
      let (d, e1) := strip_zeros 400 d0 e0 in
      let ds := int_repr d in
      (if s then [45] else [])
      ++ format_repr ds (Z.of_nat (List.length ds) + e1)
  end.

(** Exact on printable text without quotes or backslashes. *)
Definition str_repr (s : pystr) : pystr := u "'" ++ s ++ u "'".

Definition upper (c : N) : N :=
  if (97 <=? c) && (c <=? 122) then c - 32 else c.
Definition lower (c : N) : N :=
  if (65 <=? c) && (c <=? 90) then c + 32 else c.

(** Exact on ASCII text. *)
Definition capitalize (s : pystr) : pystr :=
  match s with
  | [] => []
  | c :: s' => upper c :: map lower s'
  end.

(** Inputs on which the properties are run. *)

Definition route_plain : value :=
  VDict [ (KStr (u "title"), VStr (u "Rundan"));
          (KStr (u "slug"), VStr (u "runda-1")) ].

(** The double 42.5, which is 5981343255101440 * 2 ^ -47. *)
Definition float_42_5 : spec_float := S754_finite false 5981343255101440 (-47).

Definition route_measured : value :=
  VDict [ (KStr (u "title"), VStr (u "Rundan"));
          (KStr (u "slug"), VStr (u "runda-1"));
          (KStr (u "distance_km"), VFloat float_42_5);
          (KStr (u "elevation_m"), VInt 600) ].

Definition untitled : list (scalar * value) :=
  [ (KStr (u "slug"), VStr (u "runda-1")); (KStr (u "distance_km"), VInt 55) ].

Definition md_text : pystr :=
  join nl [ u "---"; u "slug: runda-1"; u "title: Rundan"; u "distance_km: 55";
            u "elevation_m: 600"; u "gpx_file: runda-1.gpx"; u "photos: []";
            u "---"; [] ].

Definition md_second : pystr :=
  join nl [ u "---"; u "slug: runda-2"; u "title: Sjön runt"; u "---" ].

Definition md_broken : pystr :=
  join nl [ u "---"; u "title Rundan"; u "---" ].

Definition area_fryksas : list (pystr * node) :=
  [ (u "metadata",
     Dir [ (u "runda-2.md", File md_second); (u "notes.txt", File (u "x"));
           (u "runda-1.md", File md_text) ]) ].

Definition area_broken : list (pystr * node) :=
  [ (u "metadata",
     Dir [ (u "b.md", File md_broken); (u "a.md", File md_second) ]) ].

Definition area_empty : list (pystr * node) := [ (u "metadata", Dir []) ].

Definition root_two : list (pystr * node) :=
  [ (u "shared", Dir []);
    (u "areas",
     Dir [ (u "README.md", File (u "x")); (u "vansbro", Dir area_empty);
           (u "fryksas", Dir area_fryksas) ]) ].


Definition root_broken : list (pystr * node) :=
  [ (u "areas",
     Dir [ (u "fryksas", Dir area_fryksas); (u "notes", File []);
           (u "broken", Dir area_broken); (u "vansbro", Dir area_empty) ]) ].

End Sample.

(** ** The generator *)

Section Generator.

(** [yaml.safe_load]; [None] when it raises [yaml.YAMLError]. *)
Variable safe_load : pystr -> option value.
(** [float.__repr__] *)
Variable float_repr : spec_float -> pystr.
(** [str.__repr__] *)
Variable str_repr : pystr -> pystr.
(** [str.capitalize] *)
Variable capitalize : pystr -> pystr.

(** *** Formatting of values *)

Definition scalar_repr (k : scalar) : pystr :=
  match k with
  | KNull => u "None"
  | KBool b => if b then u "True" else u "False"
  | KInt z => int_repr z
  | KFloat f => float_repr f
  | KStr s => str_repr s
  end.

(** [repr(v)] *)
Fixpoint py_repr (v : value) : pystr :=
  match v with
  | VNull => u "None"
  | VBool b => if b then u "True" else u "False"
  | VInt z => int_repr z
  | VFloat f => float_repr f
  | VStr s => str_repr s
  | VList l => u "[" ++ join (u ", ") (map py_repr l) ++ u "]"
  | VDict d =>
      u "{"
      ++ join (u ", ")
           (map (fun kv => match kv with
                           | (k, x) => scalar_repr k ++ u ": " ++ py_repr x
                           end) d)
      ++ u "}"
  end.

(** [str(v)], which is what a replacement field [{v}] of an f-string and
    of [str.format] inserts. *)
Definition py_str (v : value) : pystr :=
  match v with
  | VStr s => s
  | _ => py_repr v
  end.

(** *** [json.dumps(..., ensure_ascii=False)] *)

Definition hex_digit (n : N) : N := if n <? 10 then 48 + n else 87 + n.

Definition json_escape (c : N) : pystr :=
  if c =? 34 then [92; 34]
  else if c =? 92 then [92; 92]
  else if c =? 10 then [92; 110]
  else if c =? 13 then [92; 114]
  else if c =? 9 then [92; 116]
  else if c =? 8 then [92; 98]
  else if c =? 12 then [92; 102]
  else if c <? 32 then u "\u00" ++ [hex_digit (c / 16); hex_digit (c mod 16)]
  else [c].

Definition json_string (s : pystr) : pystr :=
  dq ++ flat_map json_escape s ++ dq.

Definition floatstr (f : spec_float) : pystr :=
  match f with
  | S754_nan => u "NaN"
  | S754_infinity false => u "Infinity"
  | S754_infinity true => u "-Infinity"
  | _ => float_repr f
  end.

Definition json_key (k : scalar) : pystr :=
  match k with
  | KStr s => json_string s
  | KFloat f => json_string (floatstr f)
  | KBool true => json_string (u "true")
  | KBool false => json_string (u "false")
  | KNull => json_string (u "null")
  | KInt z => json_string (int_repr z)
  end.

Fixpoint json_dumps (v : value) : pystr :=
  match v with
  | VNull => u "null"
  | VBool true => u "true"
  | VBool false => u "false"
  | VInt z => int_repr z
  | VFloat f => floatstr f
  | VStr s => json_string s
  | VList l => u "[" ++ join (u ", ") (map json_dumps l) ++ u "]"
  | VDict d =>
      u "{"
      ++ join (u ", ")
           (map (fun kv => match kv with
                           | (k, x) => json_key k ++ u ": " ++ json_dumps x
                           end) d)
      ++ u "}"
  end.

(** *** load_routes *)

(** [metadata_dir.glob("*.md")]: nothing when there is no such directory. *)
Definition glob_md (area_dir : list (pystr * node)) : list (pystr * node) :=
  match lookup_entry (u "metadata") area_dir with
  | Some (Dir entries) => filter (fun e => endswith (u ".md") (fst e)) entries
  | _ => []
  end.

(** The text handed to the YAML loader: lines 34 to 37. *)
Definition front_matter (text : pystr) : pystr :=
  let content := strip text in
  if startswith (u "---") content then strip (strip_dashes content)
  else content.

Definition load_file (md_file : pystr * node) : result value :=
  match snd md_file with
  | File text =>
      match safe_load (front_matter text) with
      | Some meta => Ok meta
      | None => Raise YAMLError
      end
  | Dir _ => Raise IsADirectoryError
  end.

Definition load_routes (area_dir : list (pystr * node)) : result (list value) :=
  map_result load_file (sorted (glob_md area_dir)).

(** *** generate_area_index *)

(** One element of the list comprehension of lines 56 to 66. *)
Definition compact_entry (r : value) : result value :=
  title <- subscript r (u "title") ;;
  slug <- subscript r (u "slug") ;;
  distance <- get r (u "distance_km") ;;
  elevation <- get r (u "elevation_m") ;;
  asphalt <- get r (u "asphalt_pct") ;;
  gravel <- get r (u "gravel_pct") ;;
  Ok (VDict [ (KStr (u "title"), title);
              (KStr (u "slug"), slug);
              (KStr (u "distance"), distance);
              (KStr (u "elevation"), elevation);
              (KStr (u "asphalt"), asphalt);
              (KStr (u "gravel"), gravel) ]).

Definition area_index_head (area : pystr) : list pystr :=
  [ uq "<!DOCTYPE html>";
    uq "<html lang=~sv~>";
    uq "<head>";
    uq "  <meta charset=~utf-8~>";
    uq "  <title>Gravel " ++ capitalize area ++ uq "</title>";
    uq "  <meta name=~viewport~ content=~width=device-width, initial-scale=1~>";
    uq "  <link rel=~stylesheet~ href=~../../shared/style.css~>";
    uq "  <script src=~https://cdn.jsdelivr.net/npm/leaflet@1.9.4/dist/leaflet.js~></script>";
    uq "  <link rel=~stylesheet~ href=~https://cdn.jsdelivr.net/npm/leaflet@1.9.4/dist/leaflet.css~ />";
    uq "</head>";
    uq "<body>";
    uq "  <header class=~header~>";
    uq "    <h1>Gravelrutter i " ++ capitalize area ++ uq "</h1>";
    uq "    <nav><a href=~/index.html~>Till startsidan</a></nav>";
    uq "  </header>";
    uq "  <section class=~filter~>";
    uq "    <label>Max distans (km): <input id=~maxDist~ type=~number~ min=~0~ step=~1~ placeholder=~Alla~></label>";
    uq "    <label>Max höjdmeter: <input id=~maxElev~ type=~number~ min=~0~ step=~50~ placeholder=~Alla~></label>";
    uq "    <button onclick=~applyFilters()~>Filtrera</button>";
    uq "    <button onclick=~resetFilters()~>Återställ</button>";
    uq "  </section>";
    uq "  <section id=~routeList~></section>";
    uq "  <script>" ].

Definition area_index_tail : list pystr :=
  [ uq "    function renderList(data) {";
    uq "      const container = document.getElementById('routeList');";
    uq "      container.innerHTML = '';";
    uq "      if (!data.length) {";
    uq "        container.innerHTML = '<p>Inga rutter matchar filtren.</p>';";
    uq "        return;";
    uq "      }";
    uq "      data.forEach(r => {";
    uq "        const div = document.createElement('div');";
    uq "        div.className = 'route-card';";
    uq "        div.innerHTML = `";
    uq "          <h2><a href=~./routes/${r.slug}.html~>${r.title}</a></h2>";
    uq "          <p><strong>Distans:</strong> ${r.distance} km<br>";
    uq "          <strong>Höjdmeter:</strong> ${r.elevation} m<br>";
    uq "          <strong>Asfalt:</strong> ${r.asphalt} %<br>";
    uq "          <strong>Grus:</strong> ${r.gravel} %</p>";
    uq "        `;";
    uq "        container.appendChild(div);";
    uq "      });";
    uq "    }";
    uq "    function applyFilters() {";
    uq "      const maxD = parseFloat(document.getElementById('maxDist').value);";
    uq "      const maxE = parseFloat(document.getElementById('maxElev').value);";
    uq "      const filtered = routes.filter(r => {";
    uq "        return (isNaN(maxD) || r.distance <= maxD) &&";
    uq "               (isNaN(maxE) || r.elevation <= maxE);";
    uq "      });";
    uq "      renderList(filtered);";
    uq "    }";
    uq "    function resetFilters() {";
    uq "      document.getElementById('maxDist').value = '';";
    uq "      document.getElementById('maxElev').value = '';";
    uq "      renderList(routes);";
    uq "    }";
    uq "    // Initial render";
    uq "    renderList(routes);";
    uq "  </script>";
    uq "</body>";
    uq "</html>" ].

(** The f-string of lines 68 to 130. *)
Definition area_index_html (area routes_json : pystr) : pystr :=
  join nl (area_index_head area
           ++ [uq "    const routes = " ++ routes_json ++ uq ";"]
           ++ area_index_tail).

Definition generate_area_index (area : pystr) (routes : list value)
    (output_path : path) : io unit :=
  entries <~ lift (map_result compact_entry routes) ;;
  let routes_json := json_dumps (VList entries) in
  write_text output_path (area_index_html area routes_json).

(** *** generate_route_page *)

Definition value_of_key (k : scalar) : value :=
  match k with
  | KNull => VNull
  | KBool b => VBool b
  | KInt z => VInt z
  | KFloat f => VFloat f
  | KStr s => VStr s
  end.

(** [for img in photos]: the elements of a list, the characters of a
    string, the keys of a dict; other values are not iterable. *)
Definition iterate (v : value) : result (list value) :=
  match v with
  | VList l => Ok l
  | VStr s => Ok (map (fun c => VStr [c]) s)
  | VDict d => Ok (map (fun kv => value_of_key (fst kv)) d)
  | _ => Raise TypeError
  end.

(** [description.replace("\n", "<br>")] *)
Definition replace_newlines (description : value) : result pystr :=
  match description with
  | VStr s => Ok (replace1 10 (u "<br>") s)
  | _ => Raise AttributeError
  end.

Definition photo_item (title img : value) : pystr :=
  uq "<li><img src=~../images/" ++ py_str img
  ++ uq "~ alt=~Foto " ++ py_str title ++ uq "~></li>".

(** [map_script_template.format(gpx_file=gpx_file)] *)
Definition map_script (gpx_file : value) : pystr :=
  nl ++ join nl
  [ uq "    <script>";
    uq "      const map = L.map('map');";
    uq "      L.tileLayer('https://{s}.tile.openstreetmap.org/{z}/{x}/{y}.png', {";
    uq "        attribution: 'Map data © <a href=~https://openstreetmap.org~>OpenStreetMap</a> contributors'";
    uq "      }).addTo(map);";
    uq "      const gpxPath = '../../gpx/" ++ py_str gpx_file ++ uq "';";
    uq "      new L.GPX(gpxPath, {";
    uq "        async: true,";
    uq "        marker_options: {";
    uq "          startIconUrl: 'https://cdnjs.cloudflare.com/ajax/libs/leaflet.gpx/1.7.0/pin-icon-start.png',";
    uq "          endIconUrl: 'https://cdnjs.cloudflare.com/ajax/libs/leaflet.gpx/1.7.0/pin-icon-end.png',";
    uq "          shadowUrl: 'https://cdnjs.cloudflare.com/ajax/libs/leaflet.gpx/1.7.0/pin-shadow.png'";
    uq "        }";
    uq "      }).on('loaded', function(e) {";
    uq "        map.fitBounds(e.target.getBounds());";
    uq "      }).addTo(map);";
    uq "    </script>";
    uq "    " ].

(** The four lines of the facts box: lines 203 to 206. *)
Definition fact_line (label : pystr) (v : value) (unit_ : pystr) : pystr :=
  u "      <p><strong>" ++ label ++ u ":</strong> " ++ py_str v
  ++ u " " ++ unit_ ++ u "</p>" ++ nl.

Definition route_facts (distance elevation asphalt gravel : value) : pystr :=
  fact_line (u "Distans") distance (u "km")
  ++ fact_line (u "Höjdmeter") elevation (u "m")
  ++ fact_line (u "Andel asfalt") asphalt (u "%")
  ++ fact_line (u "Andel grus") gravel (u "%").

Definition route_page_head (title : value) : pystr :=
  u "<!DOCTYPE html>" ++ nl
  ++ u "<html lang='sv'>" ++ nl
  ++ u "<head>" ++ nl
  ++ u "  <meta charset='utf-8'>" ++ nl
  ++ u "  <title>" ++ py_str title ++ u " – Gravelrutt</title>" ++ nl
  ++ u "  <meta name='viewport' content='width=device-width, initial-scale=1'>" ++ nl
  ++ u "  <link rel='stylesheet' href='../../../shared/style.css'>" ++ nl
  ++ u "  <script src='https://cdn.jsdelivr.net/npm/leaflet@1.9.4/dist/leaflet.js'></script>" ++ nl
  ++ u "  <script src='https://cdnjs.cloudflare.com/ajax/libs/leaflet.gpx/1.7.0/gpx.min.js'></script>" ++ nl
  ++ u "  <link rel='stylesheet' href='https://cdn.jsdelivr.net/npm/leaflet@1.9.4/dist/leaflet.css' />" ++ nl
  ++ u "</head>" ++ nl
  ++ u "<body>" ++ nl
  ++ u "  <header class='header'>" ++ nl
  ++ u "    <h1>" ++ py_str title ++ u "</h1>" ++ nl
  ++ u "    <nav><a href='../index.html'>Tillbaka till ruttlistan</a> | <a href='/index.html'>Startsida</a></nav>" ++ nl
  ++ u "  </header>" ++ nl
  ++ u "  <section class='route-content'>" ++ nl
  ++ u "    <div class='route-facts'>" ++ nl.

Definition route_page_tail (description_html photo_items : pystr)
    (gpx_file : value) : pystr :=
  u "    <article class='description'>" ++ nl
  ++ u "      <p>" ++ description_html ++ u "</p>" ++ nl
  ++ u "    </article>" ++ nl
  ++ u "    <section class='photos'>" ++ nl
  ++ u "      <h2>Bilder</h2>" ++ nl
  ++ u "      <ul class='photo-gallery'>" ++ photo_items ++ u "</ul>" ++ nl
  ++ u "    </section>" ++ nl
  ++ u "    <p><a href='../../gpx/" ++ py_str gpx_file
  ++ u "'>Ladda ned GPX-fil</a></p>" ++ nl
  ++ u "  </section>" ++ nl
  ++ u "</body>" ++ nl
  ++ u "</html>".

(** Lines 143 to 221: the text of the page, or the exception raised on
    the way. *)
Definition route_page_html (route : value) : result pystr :=
  title <- subscript route (u "title") ;;
  slug <- subscript route (u "slug") ;;
  distance <- get route (u "distance_km") ;;
  elevation <- get route (u "elevation_m") ;;
  asphalt <- get route (u "asphalt_pct") ;;
  gravel <- get route (u "gravel_pct") ;;
  gpx_file <- get route (u "gpx_file") ;;
  description <- get_default route (u "description") (VStr []) ;;
  thumbnail <- get route (u "thumbnail") ;;
  photos <- get_default route (u "photos") (VList []) ;;
  description_html <- replace_newlines description ;;
  imgs <- iterate photos ;;
  let photo_items := join [] (map (photo_item title) imgs) in
  Ok (route_page_head title
      ++ route_facts distance elevation asphalt gravel
      ++ u "    </div>" ++ nl
      ++ u "    <div id='map' style='height:400px; margin-bottom:1em;'></div>" ++ nl
      ++ map_script gpx_file
      ++ route_page_tail description_html photo_items gpx_file).

Definition generate_route_page (area : pystr) (route : value)
    (output_path : path) : io unit :=
  html <~ lift (route_page_html route) ;;
  write_text output_path html.

(** *** generate_root_index *)

Definition root_index_item (area : pystr) : pystr :=
  u "      <li><a href='areas/" ++ area ++ u "/index.html'>"
  ++ capitalize area ++ u "</a></li>" ++ nl.

Definition root_index_head : pystr :=
  join nl
  [ u "<!DOCTYPE html>";
    u "<html lang='sv'>";
    u "<head>";
    u "  <meta charset='utf-8'>";
    u "  <title>Gravelrutter</title>";
    u "  <meta name='viewport' content='width=device-width, initial-scale=1'>";
    u "  <link rel='stylesheet' href='shared/style.css'>";
    u "</head>";
    u "<body>";
    u "  <header class='header'>";
    u "    <h1>Gravelrutter</h1>";
    u "  </header>";
    u "  <section>";
    u "    <p>Välj område:</p>";
    u "    <ul>";
    [] ].

Definition root_index_tail : pystr :=
  join nl
  [ u "    </ul>";
    u "  </section>";
    u "</body>";
    u "</html>" ].

Definition root_index_html (areas : list pystr) : pystr :=
  fold_left (fun html area => html ++ root_index_item area) areas root_index_head
  ++ root_index_tail.

Definition generate_root_index (areas : list pystr) (output_path : path)
    : io unit :=
  write_text output_path (root_index_html areas).

(** *** main *)

Definition areas_dir : path := joinpath project_root (u "areas").

(** The body of the loop of line 257 for one directory. *)
Definition process_area (area : pystr) (area_dir : list (pystr * node))
    : io unit :=
  let area_path := joinpath areas_dir area in
  routes <~ lift (load_routes area_dir) ;;
  _ <~ generate_area_index area routes (joinpath area_path (u "index.html")) ;;
  for_each routes (fun route =>
    slug <~ lift (subscript route (u "slug")) ;;
    let out_path :=
      joinpath (joinpath area_path (u "routes")) (py_str slug ++ u ".html") in
    generate_route_page area route out_path).

(** The loop of lines 257 to 267; [areas] is the list accumulated so far. *)
Fixpoint process_entries (entries : list (pystr * node)) (areas : list pystr)
    : io (list pystr) :=
  match entries with
  | [] => io_ret areas
  | (name, Dir area_dir) :: rest =>
      let areas := areas ++ [name] in
      _ <~ process_area name area_dir ;;
      process_entries rest areas
  | (_, File _) :: rest => process_entries rest areas
  end.

(** [areas_dir.iterdir()] *)
Definition iterdir_areas (root : list (pystr * node))
    : result (list (pystr * node)) :=
  match lookup_entry (u "areas") root with
  | Some (Dir entries) => Ok entries
  | Some (File _) => Raise NotADirectoryError
  | None => Raise FileNotFoundError
  end.

(** [main], started in a project whose root directory holds [root]. *)
Definition main (root : list (pystr * node)) : io unit :=
  entries <~ lift (iterdir_areas root) ;;
  areas <~ process_entries entries [] ;;
  generate_root_index areas (joinpath project_root (u "index.html")).


(** ** The vocabulary of the properties *)

(** A text that neither starts nor ends with a character of [p]. *)
Definition edges_free (p : N -> bool) (s : pystr) : Prop :=
  (exists c r, s = c :: r /\ p c = false)
  /\ (exists c r, s = r ++ [c] /\ p c = false).

(** The delimiter of a front-matter block. *)
Definition marker : pystr := u "---".

(** Only white space. *)
Definition blank (s : pystr) : Prop := Forall (fun c => isspace c = true) s.

(** A document that neither starts nor ends with white space or a dash. *)
Definition plain_edges (body : pystr) : Prop :=
  edges_free (fun c => isspace c || (cp_dash =? c)) body.

(** The order of [sorted]: by file name. *)
Definition name_le (a b : pystr * node) : Prop :=
  str_leb (fst a) (fst b) = true.

(** [area_path.is_dir()] *)
Definition is_dir (entry : pystr * node) : bool :=
  match snd entry with
  | Dir _ => true
  | File _ => false
  end.

(** A metadata entry that is a file, and one whose front matter the YAML
    loader rejects. *)
Definition regular (md_file : pystr * node) : Prop :=
  exists text, snd md_file = File text.

Definition malformed (md_file : pystr * node) : Prop :=
  exists text, snd md_file = File text /\ safe_load (front_matter text) = None.

(** A record that is a mapping with both [title] and [slug]. *)
Definition has_required_fields (r : value) : Prop :=
  exists d title slug,
    r = VDict d
    /\ dict_find (u "title") d = Some title
    /\ dict_find (u "slug") d = Some slug.

(** The four numeric facts: the key of the record and the key of the
    compact entry. *)
Definition numeric_fields : list (pystr * pystr) :=
  [ (u "distance_km", u "distance"); (u "elevation_m", u "elevation");
    (u "asphalt_pct", u "asphalt"); (u "gravel_pct", u "gravel") ].

(** The four numeric facts: the key of the record, the label and the unit
    on the route page. *)
Definition facts : list (pystr * pystr * pystr) :=
  [ (u "distance_km", u "Distans", u "km");
    (u "elevation_m", u "Höjdmeter", u "m");
    (u "asphalt_pct", u "Andel asfalt", u "%");
    (u "gravel_pct", u "Andel grus", u "%") ].



(** *** The disk after a run *)




(** A name without a slash. *)
Definition no_slash (s : pystr) : Prop :=
  Forall (fun c => (cp_slash =? c) = false) s.

(** The names of the area directories are single path components, as the
    names of directory entries are. *)
Definition plain_names (entries : list (pystr * node)) : Prop :=
  forall name area_dir,
    In (name, Dir area_dir) entries ->
    no_slash name /\ is_component name = true.

(** The slugs are single path components: "upstream data must already be
    filesystem-safe". *)
Definition plain_slugs (entries : list (pystr * node)) : Prop :=
  forall name area_dir routes r slug,
    In (name, Dir area_dir) entries ->
    load_routes area_dir = Ok routes ->
    In r routes ->
    subscript r (u "slug") = Ok slug ->
    no_slash (py_str slug).

(** The places where a run with plain names puts its pages. *)
Inductive out_path (names : list pystr) : path -> Prop :=
| out_root : out_path names (mkpath false [u "index.html"])
| out_index (a : pystr) :
    In a names -> out_path names (mkpath false [u "areas"; a; u "index.html"])
| out_route (a f : pystr) :
    In a names -> out_path names (mkpath false [u "areas"; a; u "routes"; f]).

(** A step of the driver that only adds files at paths satisfying [P]. *)
Definition writes_only {A} (P : path -> Prop) (m : io A) : Prop :=
  forall w w' o,
    m w = (w', o) ->
    exists extra, w' = w ++ extra /\ Forall (fun pc => P (fst pc)) extra.

(** The record of the scenario of the specification. *)
Definition scenario_record : value :=
  VDict [ (KStr (u "slug"), VStr (u "runda-1"));
          (KStr (u "title"), VStr (u "Rundan"));
          (KStr (u "distance_km"), VInt 55);
          (KStr (u "elevation_m"), VInt 600);
          (KStr (u "gpx_file"), VStr (u "runda-1.gpx"));
          (KStr (u "photos"), VList []) ].

(** The project: [areas/fryksas/metadata/runda-1.md] holding [text]. *)
Definition scenario_root (text : pystr) : list (pystr * node) :=
  [ (u "areas",
     Dir [ (u "fryksas",
            Dir [ (u "metadata", Dir [ (u "runda-1.md", File text) ]) ]) ]) ].

(** *** Further vocabulary *)

(** The value of a hexadecimal digit. *)
Definition hex_value (c : N) : option N :=
  if (48 <=? c) && (c <=? 57) then Some (c - 48)
  else if (97 <=? c) && (c <=? 102) then Some (c - 87)
  else if (65 <=? c) && (c <=? 70) then Some (c - 55)
  else None.

(** The character that a two-character escape of JSON stands for. *)
Definition unescape (e : N) : option N :=
  if e =? 34 then Some 34
  else if e =? 92 then Some 92
  else if e =? 47 then Some 47
  else if e =? 110 then Some 10
  else if e =? 114 then Some 13
  else if e =? 116 then Some 9
  else if e =? 98 then Some 8
  else if e =? 102 then Some 12
  else None.

(** Reading the characters of a JSON string literal after its opening
    quote: the closing quote has to end the text, and a control character
    may not occur unescaped. *)
Fixpoint read_json_chars (s : pystr) : option pystr :=
  match s with
  | [] => None
  | c :: rest =>
      if c =? 34 then
        match rest with
        | [] => Some []
        | _ :: _ => None
        end
      else if c =? 92 then
        match rest with
        | [] => None
        | e :: rest1 =>
            if e =? 117 then
              match rest1 with
              | h3 :: h2 :: h1 :: h0 :: rest2 =>
                  match hex_value h3, hex_value h2, hex_value h1, hex_value h0,
                        read_json_chars rest2 with
                  | Some a3, Some a2, Some a1, Some a0, Some t =>
                      Some ((a3 * 4096 + a2 * 256 + a1 * 16 + a0) :: t)
                  | _, _, _, _, _ => None
                  end
              | _ => None
              end
            else
              match unescape e, read_json_chars rest1 with
              | Some x, Some t => Some (x :: t)
              | _, _ => None
              end
        end
      else if c <? 32 then None
      else option_map (cons c) (read_json_chars rest)
  end.

(** Reading a JSON string literal back. *)
Definition read_json_string (s : pystr) : option pystr :=
  match s with
  | c :: rest => if c =? 34 then read_json_chars rest else None
  | [] => None
  end.

(** Where the index of an area goes, and the page of a record with the
    slug [slug]: lines 263 and 266. *)
Definition index_path (area : pystr) : path :=
  joinpath (joinpath areas_dir area) (u "index.html").

Definition route_path (area : pystr) (slug : value) : path :=
  joinpath (joinpath (joinpath areas_dir area) (u "routes"))
    (py_str slug ++ u ".html").

(** What one turn of the loop of lines 265 to 267 writes: the path and the
    text of the page of a record, or the exception it raises. *)
Definition route_output (area : pystr) (route : value) : result (path * pystr) :=
  slug <- subscript route (u "slug") ;;
  html <- route_page_html route ;;
  Ok (route_path area slug, html).

(** The last component of a path: the name of the file it denotes. *)
Definition file_name (p : path) : pystr := last (parts p) [].

(** A path that is absolute or starts with [areas]. *)
Definition under_areas (p : path) : Prop :=
  absolute p = true \/ exists rest, parts p = u "areas" :: rest.

(** [d.get(k, default)] on the items of a dict. *)
Definition field_or (d : list (scalar * value)) (k : pystr) (default : value)
  : value :=
  match dict_find k d with
  | Some v => v
  | None => default
  end.

(** *** Further inputs on which the properties are run *)

Definition sample_route_full : list (scalar * value) :=
  [ (KStr (u "title"), VStr (u "Rundan <1>"));
    (KStr (u "slug"), VStr (u "runda-1"));
    (KStr (u "distance_km"), VInt 55);
    (KStr (u "gpx_file"), VStr (u "runda-1.gpx"));
    (KStr (u "description"), VStr (u "Grus." ++ nl ++ u "Backar."));
    (KStr (u "photos"), VList [VStr (u "a.jpg"); VStr (u "b.jpg")]) ].

(** A description left empty in the front matter, and photos given as a
    number. *)
Definition sample_route_null_description : list (scalar * value) :=
  [ (KStr (u "title"), VStr (u "Rundan"));
    (KStr (u "slug"), VStr (u "runda-1"));
    (KStr (u "description"), VNull) ].

Definition sample_route_bad_photos : list (scalar * value) :=
  [ (KStr (u "title"), VStr (u "Rundan"));
    (KStr (u "slug"), VStr (u "runda-1"));
    (KStr (u "photos"), VInt 3) ].

Definition sample_md_same_slug : pystr :=
  join nl [ u "---"; u "slug: runda-2"; u "title: Nya"; u "---" ].

(** The entries of [Sample.area_fryksas] enumerated in another order, with
    another file beside them. *)
Definition sample_area_reordered : list (pystr * node) :=
  [ (u "index.html", File (u "<html>"));
    (u "metadata",
     Dir [ (u "runda-1.md", File Sample.md_text);
           (u "runda-2.md", File Sample.md_second);
           (u "draft.txt", File (u "y")) ]) ].

(** An area with two records of the same slug. *)
Definition sample_area_same_slug : list (pystr * node) :=
  [ (u "metadata",
     Dir [ (u "b.md", File sample_md_same_slug);
           (u "a.md", File Sample.md_second) ]) ].

(** * Properties *)

(** ** Strings *)

Lemma str_eqb_eq (a b : pystr) : str_eqb a b = true <-> a = b.
Proof.
  revert b; induction a as [|x a IH]; intros [|y b]; simpl; split;
    try congruence; try reflexivity.
  - intros H; apply andb_true_iff in H as [Hx Hab].
    apply N.eqb_eq in Hx; apply IH in Hab; congruence.
  - intros [= -> ->]; rewrite N.eqb_refl; simpl; now apply IH.
Qed.

Lemma str_eqb_refl (a : pystr) : str_eqb a a = true.
Proof. now apply str_eqb_eq. Qed.

Lemma startswith_spec (p s : pystr) :
  startswith p s = true <-> exists r, s = p ++ r.
Proof.
  revert s; induction p as [|x p IH]; intros s; simpl.
  - split; [intros _; now exists s | reflexivity].
  - destruct s as [|y s].
    + split; [discriminate | intros [r Hr]; discriminate].
    + rewrite andb_true_iff, N.eqb_eq, IH; split.
      * intros [-> [r ->]]; now exists r.
      * intros [r [= -> ->]]; split; [reflexivity | now exists r].
Qed.

Lemma startswith_app (p r : pystr) : startswith p (p ++ r) = true.
Proof. apply startswith_spec; now exists r. Qed.

(** [contains] decides the occurrence of a substring. *)
Lemma contains_spec (needle hay : pystr) :
  contains needle hay = true <-> exists pre post, hay = pre ++ needle ++ post.
Proof.
  induction hay as [|c hay IH].
  - simpl; rewrite orb_false_r, startswith_spec; split.
    + intros [r Hr]; now exists [], r.
    + intros [pre [post H]].
      destruct pre; [now exists post | discriminate].
  - cbn [contains]; rewrite orb_true_iff, IH, startswith_spec; split.
    + intros [[r Hr] | [pre [post H]]].
      * now exists [], r.
      * exists (c :: pre), post; simpl; now f_equal.
    + intros [[|x pre] [post H]].
      * left; now exists post.
      * right; injection H as _ H; now exists pre, post.
Qed.

Lemma contains_app_l (needle a b : pystr) :
  contains needle a = true -> contains needle (a ++ b) = true.
Proof.
  rewrite !contains_spec; intros [pre [post ->]].
  exists pre, (post ++ b); now rewrite <- !app_assoc.
Qed.

Lemma contains_app_r (needle a b : pystr) :
  contains needle b = true -> contains needle (a ++ b) = true.
Proof.
  rewrite !contains_spec; intros [pre [post ->]].
  exists (a ++ pre), post; now rewrite <- !app_assoc.
Qed.

(** ** Stripping *)

Lemma dropwhile_all (p : N -> bool) (pad rest : pystr) :
  Forall (fun c => p c = true) pad ->
  dropwhile p (pad ++ rest) = dropwhile p rest.
Proof.
  induction 1 as [|c pad Hc _ IH]; simpl; [reflexivity|now rewrite Hc].
Qed.

Lemma dropwhile_stop (p : N -> bool) (c : N) (rest : pystr) :
  p c = false -> dropwhile p (c :: rest) = c :: rest.
Proof. intros H; simpl; now rewrite H. Qed.

Lemma strip_by_padded (p : N -> bool) (left_ body right_ : pystr) :
  Forall (fun c => p c = true) left_ ->
  Forall (fun c => p c = true) right_ ->
  edges_free p body ->
  strip_by p (left_ ++ body ++ right_) = body.
Proof.
  intros Hl Hr [[c [r [Hb Hc]]] [c' [r' [Hb' Hc']]]].
  unfold strip_by.
  rewrite dropwhile_all by assumption.
  rewrite Hb; simpl app; rewrite dropwhile_stop by assumption.
  rewrite <- Hb, app_comm_cons, <- Hb.
  rewrite rev_app_distr, dropwhile_all by now apply Forall_rev.
  rewrite Hb', rev_app_distr; simpl app; rewrite dropwhile_stop by assumption.
  change (c' :: rev r') with (rev [c'] ++ rev r').
  now rewrite <- rev_app_distr, rev_involutive.
Qed.

Lemma edges_free_padded (p : N -> bool) (left_ body right_ : pystr) :
  Forall (fun c => p c = false) left_ ->
  Forall (fun c => p c = false) right_ ->
  edges_free p body ->
  edges_free p (left_ ++ body ++ right_).
Proof.
  intros Hl Hr [[c [r [Hb Hc]]] [c' [r' [Hb' Hc']]]]; split.
  - destruct left_ as [|x left_].
    + exists c, (r ++ right_); subst body; split; [reflexivity | assumption].
    + exists x, (left_ ++ body ++ right_); split; [reflexivity|].
      now inversion Hl.
  - destruct (rev right_) as [|x t] eqn:E.
    + apply (f_equal (@rev N)) in E; rewrite rev_involutive in E; subst right_.
      exists c', (left_ ++ r'); split; [|assumption].
      simpl; rewrite app_nil_r, Hb' at 1; now rewrite app_assoc.
    + apply (f_equal (@rev N)) in E; rewrite rev_involutive in E; simpl in E.
      subst right_; exists x, (left_ ++ body ++ rev t); split.
      * now rewrite <- !app_assoc.
      * apply Forall_app in Hr as [_ Hx]; now inversion Hx.
Qed.

Lemma edges_free_weaken (p q : N -> bool) (s : pystr) :
  (forall c, q c = false -> p c = false) ->
  edges_free q s -> edges_free p s.
Proof.
  intros H [[c [r [Hb Hc]]] [c' [r' [Hb' Hc']]]]; split;
    [exists c, r | exists c', r']; auto.
Qed.

(** ** The front matter handed to the YAML loader *)

Lemma blank_no_dash (s : pystr) :
  blank s -> Forall (fun c => (cp_dash =? c) = false) s.
Proof.
  apply Forall_impl; intros c Hc.
  destruct (N.eqb_spec cp_dash c) as [<-|]; [discriminate | reflexivity].
Qed.

Lemma marker_dashes : Forall (fun c => (cp_dash =? c) = true) marker.
Proof. repeat constructor. Qed.

Lemma plain_edges_space (body : pystr) :
  plain_edges body -> edges_free isspace body.
Proof.
  apply edges_free_weaken; intros c H; now apply orb_false_iff in H as [H _].
Qed.

Lemma plain_edges_dash (body : pystr) :
  plain_edges body -> edges_free (N.eqb cp_dash) body.
Proof.
  apply edges_free_weaken; intros c H; now apply orb_false_iff in H as [_ H].
Qed.

Lemma plain_edges_not_marked (body rest : pystr) :
  plain_edges body -> startswith marker (body ++ rest) = false.
Proof.
  intros [[c [r [-> Hc]]] _]; apply orb_false_iff in Hc as [_ Hc].
  change marker with [cp_dash; cp_dash; cp_dash].
  cbn [app startswith]; now rewrite Hc.
Qed.

Lemma front_matter_marked (pad0 pad3 left_ right_ inner body : pystr) :
  blank pad0 -> blank pad3 ->
  edges_free isspace (marker ++ inner) ->
  strip_by (N.eqb cp_dash) (marker ++ inner) = left_ ++ body ++ right_ ->
  blank left_ -> blank right_ -> plain_edges body ->
  front_matter (pad0 ++ (marker ++ inner) ++ pad3) = body.
Proof.
  intros H0 H3 He Hd Hl Hr Hb; unfold front_matter, strip.
  rewrite strip_by_padded by assumption.
  fold marker; rewrite startswith_app; unfold strip_dashes; rewrite Hd.
  apply strip_by_padded; auto using plain_edges_space.
Qed.

Lemma marker_first_edge (inner : pystr) (c : N) (r : pystr) :
  inner = r ++ [c] -> isspace c = false ->
  edges_free isspace (marker ++ inner).
Proof.
  intros -> Hc; split.
  - exists cp_dash, ([cp_dash; cp_dash] ++ r ++ [c]); now split.
  - exists c, (marker ++ r); split; [now rewrite app_assoc | assumption].
Qed.

(** C3, as amended: a document that neither starts nor ends with a dash or
    white space is what [load_routes] hands to the YAML loader when the
    file has both markers, only the leading one, or none, whatever white
    space surrounds the markers; a closing marker without an opening one
    is not stripped and stays in the text that is parsed. *)
Theorem front_matter_strips_delimiters (pad0 pad1 pad2 pad3 body : pystr) :
  blank pad0 -> blank pad1 -> blank pad2 -> blank pad3 -> plain_edges body ->
  front_matter (pad0 ++ (marker ++ pad1 ++ body ++ pad2 ++ marker) ++ pad3) = body
  /\ front_matter (pad0 ++ (marker ++ pad1 ++ body) ++ pad3) = body
  /\ front_matter (pad0 ++ body ++ pad3) = body
  /\ front_matter (pad0 ++ (body ++ pad2 ++ marker) ++ pad3)
     = body ++ pad2 ++ marker
  /\ forall name text,
       load_file (name, File text)
       = match safe_load (front_matter text) with
         | Some meta => Ok meta
         | None => Raise YAMLError
         end.
Proof.
  intros H0 H1 H2 H3 Hb.
  pose proof (plain_edges_dash body Hb) as Hd.
  pose proof (plain_edges_space body Hb) as Hs.
  repeat split.
  - apply front_matter_marked with (left_ := pad1) (right_ := pad2); auto.
    + apply marker_first_edge with (c := cp_dash)
        (r := pad1 ++ body ++ pad2 ++ [cp_dash; cp_dash]); [|reflexivity].
      unfold marker; simpl; now rewrite <- !app_assoc.
    + replace (marker ++ pad1 ++ body ++ pad2 ++ marker)
        with (marker ++ (pad1 ++ body ++ pad2) ++ marker)
        by now rewrite <- !app_assoc.
      apply strip_by_padded; auto using marker_dashes.
      apply edges_free_padded; auto using blank_no_dash.
  - apply front_matter_marked with (left_ := pad1) (right_ := []); auto.
    + destruct Hs as [_ [c [r [-> Hc]]]].
      apply marker_first_edge with (c := c) (r := pad1 ++ r);
        [now rewrite app_assoc | assumption].
    + rewrite app_nil_r.
      rewrite <- (app_nil_r (pad1 ++ body)) at 1.
      apply strip_by_padded; auto using marker_dashes.
      rewrite <- (app_nil_r body).
      apply edges_free_padded; auto using blank_no_dash.
    + constructor.
  - unfold front_matter, strip; rewrite strip_by_padded by assumption.
    rewrite <- (app_nil_r body) at 1; fold marker.
    now rewrite plain_edges_not_marked.
  - unfold front_matter, strip; rewrite strip_by_padded; try assumption.
    + fold marker; now rewrite plain_edges_not_marked.
    + destruct Hs as [[c [r [-> Hc]]] _]; split.
      * exists c, (r ++ pad2 ++ marker); now split.
      * exists cp_dash, ((c :: r) ++ pad2 ++ [cp_dash; cp_dash]); split;
          [|reflexivity].
        unfold marker; simpl; now rewrite <- !app_assoc.
Qed.

(** ** Sorting by file name *)

Lemma str_leb_total (a b : pystr) : str_leb a b = true \/ str_leb b a = true.
Proof.
  revert b; induction a as [|x a IH]; intros [|y b]; simpl; auto.
  destruct (N.ltb_spec x y), (N.ltb_spec y x), (N.eqb_spec x y),
    (N.eqb_spec y x); simpl; auto; lia.
Qed.

Lemma str_leb_trans (a b c : pystr) :
  str_leb a b = true -> str_leb b c = true -> str_leb a c = true.
Proof.
  revert b c; induction a as [|x a IH]; intros [|y b] [|z c]; simpl;
    try congruence.
  intros H1 H2.
  destruct (N.ltb_spec x y), (N.ltb_spec y z), (N.ltb_spec x z),
    (N.eqb_spec x y), (N.eqb_spec y z), (N.eqb_spec x z);
    simpl in *; try congruence; try lia.
  now apply IH with b.
Qed.

Lemma insert_by_name_perm (x : pystr * node) (l : list (pystr * node)) :
  Permutation (insert_by_name x l) (x :: l).
Proof.
  induction l as [|y l IH]; simpl; [reflexivity|].
  destruct (str_leb (fst x) (fst y)); [reflexivity|].
  rewrite IH; apply perm_swap.
Qed.

Lemma sorted_perm (l : list (pystr * node)) : Permutation (sorted l) l.
Proof.
  induction l as [|x l IH]; simpl; [reflexivity|].
  rewrite insert_by_name_perm; now constructor.
Qed.

Lemma insert_by_name_sorted (x : pystr * node) (l : list (pystr * node)) :
  StronglySorted name_le l -> StronglySorted name_le (insert_by_name x l).
Proof.
  induction 1 as [|y l Hl IH Hy]; simpl.
  - repeat constructor.
  - destruct (str_leb (fst x) (fst y)) eqn:E.
    + constructor; [now constructor|].
      constructor; [exact E|].
      revert Hy; apply Forall_impl; intros z Hz.
      now apply str_leb_trans with (fst y).
    + constructor; [assumption|].
      rewrite (Forall_forall (name_le y)); intros z Hz.
      apply (Permutation_in _ (insert_by_name_perm x l)) in Hz.
      destruct Hz as [<- | Hz].
      * destruct (str_leb_total (fst x) (fst y)); [congruence | assumption].
      * now apply (proj1 (Forall_forall _ _) Hy).
Qed.

Lemma sorted_is_sorted (l : list (pystr * node)) :
  StronglySorted name_le (sorted l).
Proof.
  induction l; simpl; [constructor | now apply insert_by_name_sorted].
Qed.

(** ** Comprehensions and loops *)

Lemma map_result_ok {A B} (f : A -> result B) (l : list A) (rs : list B) :
  map_result f l = Ok rs <-> Forall2 (fun a r => f a = Ok r) l rs.
Proof.
  revert rs; induction l as [|a l IH]; intros rs; simpl.
  - split; [intros [= <-]; constructor | now inversion 1].
  - destruct (f a) as [b|e] eqn:Ea; simpl.
    + destruct (map_result f l) as [bs|e] eqn:El; simpl.
      * split.
        -- intros [= <-]; constructor; [assumption | now apply IH].
        -- inversion 1 as [|? r ? rs' Hr Hrs]; subst.
           apply IH in Hrs; congruence.
      * split; [discriminate|].
        inversion 1 as [|? r ? rs' Hr Hrs]; subst.
        apply IH in Hrs; discriminate.
    + split; [discriminate|].
      inversion 1; subst; congruence.
Qed.

(** C4: the records come in the order of the file names of the [*.md]
    entries they were parsed from: [load_routes] parses a rearrangement of
    the entries that is sorted by name, one record per entry. *)
Theorem load_routes_sorted_by_filename
    (area_dir : list (pystr * node)) (routes : list value) :
  load_routes area_dir = Ok routes ->
  exists md_files,
    Permutation md_files (glob_md area_dir)
    /\ StronglySorted name_le md_files
    /\ Forall2 (fun md_file meta => load_file md_file = Ok meta) md_files routes.
Proof.
  unfold load_routes; intros H.
  exists (sorted (glob_md area_dir)); repeat split.
  - apply sorted_perm.
  - apply sorted_is_sorted.
  - now apply map_result_ok.
Qed.

(** ** The driver, step by step *)

Lemma generate_area_index_unfold (area : pystr) (routes : list value)
    (p : path) (w : written) :
  generate_area_index area routes p w
  = match map_result compact_entry routes with
    | Ok entries =>
        (w ++ [(p, area_index_html area (json_dumps (VList entries)))], Ok tt)
    | Raise e => (w, Raise e)
    end.
Proof.
  unfold generate_area_index, io_bind, lift, write_text.
  now destruct (map_result compact_entry routes).
Qed.

Lemma process_area_unfold (area : pystr) (area_dir : list (pystr * node))
    (w : written) :
  process_area area area_dir w
  = match load_routes area_dir with
    | Raise e => (w, Raise e)
    | Ok routes =>
        let area_path := joinpath areas_dir area in
        match generate_area_index area routes
                (joinpath area_path (u "index.html")) w with
        | (w1, Raise e) => (w1, Raise e)
        | (w1, Ok _) =>
            for_each routes (fun route =>
              slug <~ lift (subscript route (u "slug")) ;;
              generate_route_page area route
                (joinpath (joinpath area_path (u "routes"))
                   (py_str slug ++ u ".html"))) w1
        end
    end.
Proof.
  unfold process_area, io_bind, lift.
  destruct (load_routes area_dir); [|reflexivity].
  now destruct (generate_area_index _ _ _ w) as [w1 [[]|e]].
Qed.

Lemma process_entries_app (pre post : list (pystr * node))
    (areas : list pystr) (w : written) :
  process_entries (pre ++ post) areas w
  = match process_entries pre areas w with
    | (w1, Ok areas1) => process_entries post areas1 w1
    | (w1, Raise e) => (w1, Raise e)
    end.
Proof.
  revert areas w; induction pre as [|[name [text|area_dir]] pre IH];
    intros areas w; simpl.
  - reflexivity.
  - apply IH.
  - unfold io_bind.
    destruct (process_area name area_dir w) as [w1 [[]|e]]; [apply IH|reflexivity].
Qed.

Lemma process_entries_dirs_only (entries : list (pystr * node))
    (areas : list pystr) (w : written) :
  process_entries entries areas w
  = process_entries (filter is_dir entries) areas w.
Proof.
  revert areas w; induction entries as [|[name [text|area_dir]] rest IH];
    intros areas w; simpl.
  - reflexivity.
  - apply IH.
  - unfold io_bind.
    destruct (process_area name area_dir w) as [w1 [[]|e]]; [apply IH|reflexivity].
Qed.

Lemma process_entries_areas (entries : list (pystr * node))
    (areas areas' : list pystr) (w w' : written) :
  process_entries entries areas w = (w', Ok areas') ->
  areas' = areas ++ map fst (filter is_dir entries).
Proof.
  revert areas w; induction entries as [|[name [text|area_dir]] rest IH];
    intros areas w; simpl.
  - intros [= _ <-]; now rewrite app_nil_r.
  - apply IH.
  - unfold io_bind.
    destruct (process_area name area_dir w) as [w1 [[]|e]]; [|discriminate].
    intros H; apply IH in H; now rewrite <- app_assoc in H.
Qed.

Lemma main_unfold (root : list (pystr * node)) :
  main root []
  = match iterdir_areas root with
    | Raise e => ([], Raise e)
    | Ok entries =>
        match process_entries entries [] [] with
        | (w, Ok areas) =>
            (w ++ [(joinpath project_root (u "index.html"),
                    root_index_html areas)], Ok tt)
        | (w, Raise e) => (w, Raise e)
        end
    end.
Proof.
  unfold main, io_bind, lift, generate_root_index, write_text.
  destruct (iterdir_areas root); [|reflexivity].
  now destruct (process_entries _ _ _) as [w [areas|e]].
Qed.

(** ** Malformed front matter *)

Lemma load_files_malformed (md_files : list (pystr * node)) :
  Forall regular md_files -> Exists malformed md_files ->
  map_result load_file md_files = Raise YAMLError.
Proof.
  induction 1 as [|f l [text Hf] Hl IH]; intros Hex; [now inversion Hex|].
  simpl; unfold load_file at 1; rewrite Hf.
  destruct (safe_load (front_matter text)) as [meta|] eqn:E; simpl;
    [|reflexivity].
  inversion Hex as [? ? [text' [Hf' E']]|]; subst.
  - congruence.
  - now rewrite IH.
Qed.

Lemma load_routes_malformed (area_dir : list (pystr * node)) :
  Forall regular (glob_md area_dir) -> Exists malformed (glob_md area_dir) ->
  load_routes area_dir = Raise YAMLError.
Proof.
  intros Hall Hex; apply load_files_malformed.
  - apply Forall_forall; intros f Hf.
    apply (Permutation_in _ (sorted_perm _)) in Hf.
    now apply (proj1 (Forall_forall _ _) Hall).
  - apply Exists_exists in Hex as [f [Hf Hm]]; apply Exists_exists.
    exists f; split; [|assumption].
    now apply (Permutation_in _ (Permutation_sym (sorted_perm _))).
Qed.

(** C6: when the driver reaches an area whose [*.md] entries are files,
    one of them malformed, the run ends with the parse error; the files on
    disk are
    exactly those written for the areas before it, nothing having been
    written for the area itself or for the root index. *)
Theorem malformed_file_aborts_run
    (root pre post : list (pystr * node)) (name : pystr)
    (area_dir : list (pystr * node))
    (files_before : written) (areas_before : list pystr) :
  iterdir_areas root = Ok (pre ++ (name, Dir area_dir) :: post) ->
  process_entries pre [] [] = (files_before, Ok areas_before) ->
  Forall regular (glob_md area_dir) ->
  Exists malformed (glob_md area_dir) ->
  run_io (main root) = mkrun files_before (Raise YAMLError).
Proof.
  intros Hroot Hpre Hreg Hbad.
  unfold run_io; rewrite main_unfold, Hroot, process_entries_app, Hpre.
  cbn [process_entries]; unfold io_bind.
  rewrite process_area_unfold, load_routes_malformed by assumption.
  reflexivity.
Qed.

(** ** The root index *)

Lemma root_index_items (areas : list pystr) (html : pystr) :
  fold_left (fun html area => html ++ root_index_item area) areas html
  = html ++ List.concat (map root_index_item areas).
Proof.
  revert html; induction areas as [|a areas IH]; intros html; simpl.
  - now rewrite app_nil_r.
  - now rewrite IH, <- app_assoc.
Qed.

(** C9: the driver processes the directories among the entries of the
    areas root and nothing else, and a completed run writes a root index
    whose list holds, between [<ul>] and [</ul>], one item per directory in
    the order of the enumeration: the link to [areas/<name>/index.html]
    labelled with the capitalized name.  Nothing else in the page is an
    item. *)
Theorem root_index_in_enumeration_order
    (root entries : list (pystr * node)) (w : written) :
  iterdir_areas root = Ok entries ->
  run_io (main root) = mkrun w (Ok tt) ->
  let areas := map fst (filter is_dir entries) in
  process_entries entries [] [] = process_entries (filter is_dir entries) [] []
  /\ exists w0 pre post,
       process_entries entries [] [] = (w0, Ok areas)
       /\ w = w0 ++ [(mkpath false [u "index.html"],
                      pre ++ u "    <ul>" ++ nl
                      ++ List.concat
                           (map (fun a => u "      <li><a href='areas/" ++ a
                                          ++ u "/index.html'>" ++ capitalize a
                                          ++ u "</a></li>" ++ nl) areas)
                      ++ u "    </ul>" ++ nl ++ post)]
       /\ contains (u "<li>") pre = false
       /\ contains (u "<li>") post = false.
Proof.
  intros Hroot Hrun areas; split; [apply process_entries_dirs_only|].
  unfold run_io in Hrun; rewrite main_unfold, Hroot in Hrun.
  destruct (process_entries entries [] []) as [w0 [areas'|e]] eqn:E;
    [|discriminate].
  apply process_entries_areas in E as Ha; simpl in Ha; subst areas'.
  exists w0, (firstn 331 root_index_head), (skipn 10 root_index_tail).
  split; [reflexivity|]; split.
  - injection Hrun as <-.
    change (joinpath project_root (u "index.html"))
      with (mkpath false [u "index.html"]).
    unfold root_index_html; rewrite root_index_items.
    assert (Hh : root_index_head
                 = firstn 331 root_index_head ++ u "    <ul>" ++ nl)
      by (vm_compute; reflexivity).
    assert (Ht : root_index_tail
                 = u "    </ul>" ++ nl ++ skipn 10 root_index_tail)
      by (vm_compute; reflexivity).
    apply (f_equal (fun html => w0 ++ [(mkpath false [u "index.html"], html)])).
    transitivity
      ((firstn 331 root_index_head ++ u "    <ul>" ++ nl)
       ++ List.concat (map root_index_item areas)
       ++ (u "    </ul>" ++ nl ++ skipn 10 root_index_tail)).
    + rewrite <- Hh, <- Ht; now rewrite <- app_assoc.
    + now rewrite <- !app_assoc.
  - split; vm_compute; reflexivity.
Qed.

(** ** Required and optional fields *)

Lemma compact_entry_ok_inv (r entry : value) :
  compact_entry r = Ok entry -> has_required_fields r.
Proof.
  unfold compact_entry, subscript; destruct r as [| | | | |l|d]; try discriminate.
  destruct (dict_find (u "title") d) as [t|] eqn:Et; [|discriminate].
  destruct (dict_find (u "slug") d) as [s|] eqn:Es; [|discriminate].
  intros _; now exists d, t, s.
Qed.

Lemma missing_field_raises (r : value) :
  ~ has_required_fields r ->
  exists e,
    compact_entry r = Raise e
    /\ route_page_html r = Raise e
    /\ (forall d, r = VDict d ->
        exists k, (k = u "title" \/ k = u "slug") /\ e = KeyError k).
Proof.
  intros H; unfold compact_entry, route_page_html, subscript.
  destruct r as [| | | | |l|d];
    try (exists TypeError; repeat split; intros d' Hd'; discriminate Hd').
  destruct (dict_find (u "title") d) as [t|] eqn:Et.
  - destruct (dict_find (u "slug") d) as [s|] eqn:Es.
    + exfalso; apply H; now exists d, t, s.
    + exists (KeyError (u "slug")); repeat split; try reflexivity.
      intros d' _; exists (u "slug"); auto.
  - exists (KeyError (u "title")); repeat split; try reflexivity.
    intros d' _; exists (u "title"); auto.
Qed.

Lemma map_result_first_raise {A B} (f : A -> result B)
    (before after : list A) (a : A) (e : exn) :
  Forall (fun x => exists b, f x = Ok b) before -> f a = Raise e ->
  map_result f (before ++ a :: after) = Raise e.
Proof.
  intros Hb Ha; induction Hb as [|x before [b Hx] _ IH]; simpl.
  - now rewrite Ha.
  - now rewrite Hx, IH.
Qed.

Lemma process_entries_ok (entries : list (pystr * node))
    (areas areas' : list pystr) (w w' : written) :
  process_entries entries areas w = (w', Ok areas') ->
  forall name area_dir, In (name, Dir area_dir) entries ->
  exists w1 w2, process_area name area_dir w1 = (w2, Ok tt).
Proof.
  revert areas w; induction entries as [|[n [text|d]] rest IH];
    intros areas w H name area_dir Hin; simpl in H.
  - destruct Hin.
  - destruct Hin as [Hin|Hin]; [discriminate | eauto].
  - unfold io_bind in H.
    destruct (process_area n d w) as [w1 [[]|e]] eqn:E; [|discriminate].
    destruct Hin as [[= <- <-]|Hin]; [now exists w, w1 | eauto].
Qed.

(** C10: a record without [title] or without [slug] makes the area index
    and the route page raise, with a [KeyError] for the missing key when
    the record is a mapping, whereas a record with nothing but the two is
    rendered; so every record of an area that a completed run has
    processed had both. *)
Theorem required_fields_enforced :
  (forall r, ~ has_required_fields r ->
     exists e,
       route_page_html r = Raise e
       /\ (forall d, r = VDict d ->
           exists k, (k = u "title" \/ k = u "slug") /\ e = KeyError k)
       /\ forall area before after p w,
            Forall (fun x => exists entry, compact_entry x = Ok entry) before ->
            generate_area_index area (before ++ r :: after) p w = (w, Raise e)
            /\ generate_route_page area r p w = (w, Raise e))
  /\ (forall title slug,
        let r := VDict [(KStr (u "title"), title); (KStr (u "slug"), slug)] in
        (exists entry, compact_entry r = Ok entry)
        /\ (exists html, route_page_html r = Ok html))
  /\ (forall root entries w name area_dir routes r,
        iterdir_areas root = Ok entries ->
        run_io (main root) = mkrun w (Ok tt) ->
        In (name, Dir area_dir) entries ->
        load_routes area_dir = Ok routes ->
        In r routes ->
        has_required_fields r).
Proof.
  split; [|split].
  - intros r Hr; destruct (missing_field_raises r Hr) as [e [Hc [Hp Hk]]].
    exists e; split; [assumption|]; split; [assumption|].
    intros area before after p w Hbefore; split.
    + rewrite generate_area_index_unfold.
      now rewrite (map_result_first_raise _ _ _ _ _ Hbefore Hc).
    + unfold generate_route_page, io_bind, lift; now rewrite Hp.
  - intros title slug r; split; eexists; reflexivity.
  - intros root entries w name area_dir routes r Hroot Hrun Hin Hload Hr.
    unfold run_io in Hrun; rewrite main_unfold, Hroot in Hrun.
    destruct (process_entries entries [] []) as [w0 [areas|e]] eqn:E;
      [|discriminate].
    destruct (process_entries_ok _ _ _ _ _ E _ _ Hin) as [w1 [w2 Hp]].
    rewrite process_area_unfold, Hload in Hp; cbv zeta in Hp.
    rewrite generate_area_index_unfold in Hp.
    destruct (map_result compact_entry routes) as [es|e] eqn:Ec;
      [|discriminate].
    apply map_result_ok in Ec.
    clear - Ec Hr; induction Ec as [|x e l es Hx _ IH]; [destruct Hr|].
    destruct Hr as [<-|Hr]; [now apply compact_entry_ok_inv with e | auto].
Qed.

(** ** Numbers in the embedded data *)

Lemma to_ascii_string_text (s : string) : to_ascii_string (ascii_text s) = Some s.
Proof.
  induction s as [|a s IH]; [reflexivity|].
  unfold ascii_text in *; simpl.
  destruct (N.ltb_spec (N_of_ascii a) 256) as [_|H].
  - now rewrite IH, ascii_N_embedding.
  - pose proof (N_ascii_bounded a); lia.
Qed.

(** The decimal text of an integer reads back as that integer. *)
Lemma read_int_repr (z : Z) : read_int (int_repr z) = Some z.
Proof.
  unfold read_int, int_repr; rewrite to_ascii_string_text.
  rewrite NilZero.isi.
  - simpl; now rewrite DecimalZ.of_to.
  - destruct z; simpl; try discriminate.
    intros [= H]; now apply (Unsigned.to_uint_nonnil p).
  - destruct z; simpl; try discriminate.
    intros [= H]; now apply (Unsigned.to_uint_nonnil p).
Qed.

Lemma contains_refl (s : pystr) : contains s s = true.
Proof. apply contains_spec; exists [], []; now rewrite app_nil_r. Qed.

Lemma contains_join (sep x : pystr) (items : list pystr) :
  In x items -> contains x (join sep items) = true.
Proof.
  induction items as [|y items IH]; [intros []|].
  intros [->|Hin]; simpl.
  - destruct items; [apply contains_refl|].
    apply contains_app_l, contains_refl.
  - destruct items as [|z items]; [destruct Hin|].
    apply contains_app_r, contains_app_r; now apply IH.
Qed.

Lemma compact_entry_of_dict (d : list (scalar * value)) (title slug : value) :
  dict_find (u "title") d = Some title ->
  dict_find (u "slug") d = Some slug ->
  compact_entry (VDict d)
  = Ok (VDict [ (KStr (u "title"), title);
                (KStr (u "slug"), slug);
                (KStr (u "distance"), or_none (dict_find (u "distance_km") d));
                (KStr (u "elevation"), or_none (dict_find (u "elevation_m") d));
                (KStr (u "asphalt"), or_none (dict_find (u "asphalt_pct") d));
                (KStr (u "gravel"), or_none (dict_find (u "gravel_pct") d)) ]).
Proof.
  intros Ht Hs; unfold compact_entry, subscript; now rewrite Ht, Hs.
Qed.

Lemma area_index_embeds_json (area routes_json : pystr) :
  contains routes_json (area_index_html area routes_json) = true.
Proof.
  unfold area_index_html; apply contains_spec.
  assert (Hin : In (uq "    const routes = " ++ routes_json ++ uq ";")
                  (area_index_head area
                   ++ [uq "    const routes = " ++ routes_json ++ uq ";"]
                   ++ area_index_tail))
    by (apply in_or_app; right; now left).
  apply (contains_join nl) in Hin; apply contains_spec in Hin.
  destruct Hin as [pre [post ->]].
  exists (pre ++ uq "    const routes = "), (uq ";" ++ post).
  now rewrite <- !app_assoc.
Qed.

Lemma contains_trans (a b c : pystr) :
  contains a b = true -> contains b c = true -> contains a c = true.
Proof.
  rewrite !contains_spec; intros [p1 [q1 ->]] [p2 [q2 ->]].
  exists (p2 ++ p1), (q1 ++ q2); now rewrite <- !app_assoc.
Qed.

Lemma json_dumps_dict (d : list (scalar * value)) :
  json_dumps (VDict d)
  = u "{"
    ++ join (u ", ")
         (map (fun kv => json_key (fst kv) ++ u ": " ++ json_dumps (snd kv)) d)
    ++ u "}".
Proof.
  cbn [json_dumps]; do 3 f_equal.
  apply map_ext; now intros [k x].
Qed.

Lemma json_dumps_list (l : list value) :
  json_dumps (VList l) = u "[" ++ join (u ", ") (map json_dumps l) ++ u "]".
Proof. reflexivity. Qed.

Lemma json_field_embedded (d : list (scalar * value)) (k : pystr) (v : value) :
  In (KStr k, v) d ->
  contains (json_string k ++ u ": " ++ json_dumps v) (json_dumps (VDict d)) = true.
Proof.
  intros Hin; rewrite json_dumps_dict.
  apply contains_app_r, contains_app_l, contains_join.
  apply (in_map (fun kv => json_key (fst kv) ++ u ": " ++ json_dumps (snd kv)))
    in Hin; exact Hin.
Qed.

Lemma join_app (sep : pystr) (a b : list pystr) :
  a <> [] -> b <> [] -> join sep (a ++ b) = join sep a ++ sep ++ join sep b.
Proof.
  intros Ha Hb; induction a as [|x a IH]; [congruence|].
  destruct a as [|y a].
  - destruct b; [congruence | reflexivity].
  - cbn [app join] in *; rewrite IH by discriminate.
    now rewrite <- !app_assoc.
Qed.

(** The embedded data is the line [const routes = ...;] of the page. *)
Lemma area_index_embeds_line (area routes_json : pystr) :
  contains (nl ++ uq "    const routes = " ++ routes_json ++ uq ";" ++ nl)
    (area_index_html area routes_json) = true.
Proof.
  unfold area_index_html.
  rewrite join_app;
    [|unfold area_index_head; discriminate | discriminate].
  rewrite join_app; [|discriminate | unfold area_index_tail; discriminate].
  apply contains_spec.
  exists (join nl (area_index_head area)), (join nl area_index_tail).
  cbn [join]; now rewrite <- !app_assoc.
Qed.

(** The text of a compact entry: the six keys in the order of the source,
    each followed by its value as JSON. *)
Lemma compact_entry_text (title slug distance elevation asphalt gravel : value) :
  json_dumps (VDict [ (KStr (u "title"), title);
                      (KStr (u "slug"), slug);
                      (KStr (u "distance"), distance);
                      (KStr (u "elevation"), elevation);
                      (KStr (u "asphalt"), asphalt);
                      (KStr (u "gravel"), gravel) ])
  = uq "{~title~: " ++ json_dumps title
    ++ uq ", ~slug~: " ++ json_dumps slug
    ++ uq ", ~distance~: " ++ json_dumps distance
    ++ uq ", ~elevation~: " ++ json_dumps elevation
    ++ uq ", ~asphalt~: " ++ json_dumps asphalt
    ++ uq ", ~gravel~: " ++ json_dumps gravel ++ uq "}".
Proof.
  cbn [json_dumps map join json_key]; rewrite <- !app_assoc; reflexivity.
Qed.

(** The number that the text of a float denotes is that float, whenever
    [float.__repr__] prints a finite float so that it reads back. *)
Lemma read_floatstr (f : spec_float) :
  (is_finite f = true -> read_float (float_repr f) = Some f) ->
  read_float (floatstr f) = Some f.
Proof.
  intros H; destruct f as [s|[|]| |s m e]; cbn [floatstr];
    try reflexivity; apply H; reflexivity.
Qed.

(** C2: in an area index that is written, the entry of every record is the
    text [{"title": ..., "slug": ..., "distance": ..., "elevation": ...,
    "asphalt": ..., "gravel": ...}], and each of the four numeric facts
    stands under its key as a JSON number or [null], never as a quoted
    text: [null] when the record has no such field; for an integer its
    decimal numeral, which reads back as that integer; for a float a text
    that denotes that very double in the script ([NaN], [Infinity] and
    [-Infinity] when it is not finite), given that [float.__repr__] prints
    this float so that it reads back. *)
Theorem numeric_facts_embedded_as_numbers
    (area : pystr) (routes : list value) (p : path) (w w' : written)
    (r : value) (src dst : pystr) :
  generate_area_index area routes p w = (w', Ok tt) ->
  In r routes ->
  In (src, dst) numeric_fields ->
  exists d title slug entry html,
    r = VDict d
    /\ dict_find (u "title") d = Some title
    /\ dict_find (u "slug") d = Some slug
    /\ compact_entry r = Ok entry
    /\ w' = w ++ [(p, html)]
    /\ contains (json_dumps entry) html = true
    /\ json_dumps entry
       = uq "{~title~: " ++ json_dumps title
         ++ uq ", ~slug~: " ++ json_dumps slug
         ++ uq ", ~distance~: "
         ++ json_dumps (or_none (dict_find (u "distance_km") d))
         ++ uq ", ~elevation~: "
         ++ json_dumps (or_none (dict_find (u "elevation_m") d))
         ++ uq ", ~asphalt~: "
         ++ json_dumps (or_none (dict_find (u "asphalt_pct") d))
         ++ uq ", ~gravel~: "
         ++ json_dumps (or_none (dict_find (u "gravel_pct") d)) ++ uq "}"
    /\ let v := or_none (dict_find src d) in
       subscript entry dst = Ok v
       /\ contains (json_string dst ++ u ": " ++ json_dumps v) (json_dumps entry)
          = true
       /\ (dict_find src d = None -> json_dumps v = u "null")
       /\ (forall z, dict_find src d = Some (VInt z) ->
             json_dumps v = int_repr z /\ read_int (json_dumps v) = Some z)
       /\ (forall f, dict_find src d = Some (VFloat f) ->
             (is_finite f = true -> read_float (float_repr f) = Some f) ->
             read_float (json_dumps v) = Some f).
Proof.
  intros Hgen Hr Hk; rewrite generate_area_index_unfold in Hgen.
  destruct (map_result compact_entry routes) as [entries|e] eqn:E;
    [|discriminate].
  injection Hgen as <-.
  apply map_result_ok in E.
  assert (Hentry : exists entry, compact_entry r = Ok entry /\ In entry entries).
  { clear - E Hr; induction E as [|x e l es Hx _ IH]; [destruct Hr|].
    destruct Hr as [<-|Hr]; [exists e; split; [assumption | now left]|].
    destruct (IH Hr) as [e' [He' Hin]]; exists e'; split; [assumption | now right]. }
  destruct Hentry as [entry [Hc Hin]].
  destruct (compact_entry_ok_inv _ _ Hc) as [d [title [slug [-> [Ht Hs]]]]].
  exists d, title, slug, entry, (area_index_html area (json_dumps (VList entries))).
  split; [reflexivity|]; split; [assumption|]; split; [assumption|].
  split; [assumption|]; split; [reflexivity|]; split.
  { apply contains_trans with (json_dumps (VList entries));
      [|apply area_index_embeds_json].
    rewrite json_dumps_list.
    apply contains_app_r, contains_app_l, contains_join.
    now apply in_map. }
  rewrite (compact_entry_of_dict d title slug Ht Hs) in Hc.
  injection Hc as <-; split; [apply compact_entry_text|]; cbv zeta.
  assert (Hv : (dict_find src d = None ->
                json_dumps (or_none (dict_find src d)) = u "null")
               /\ (forall z, dict_find src d = Some (VInt z) ->
                     json_dumps (or_none (dict_find src d)) = int_repr z
                     /\ read_int (json_dumps (or_none (dict_find src d)))
                        = Some z)
               /\ (forall f, dict_find src d = Some (VFloat f) ->
                     (is_finite f = true -> read_float (float_repr f) = Some f) ->
                     read_float (json_dumps (or_none (dict_find src d)))
                     = Some f)).
  { split; [|split].
    - intros ->; reflexivity.
    - intros z ->; split; [reflexivity | apply read_int_repr].
    - intros f -> Hf; cbn [or_none json_dumps]; now apply read_floatstr. }
  unfold numeric_fields in Hk; simpl In in Hk.
  destruct Hk as [Hk|[Hk|[Hk|[Hk|[]]]]]; injection Hk as <- <-;
    (split; [reflexivity|]; split; [|exact Hv]);
    apply json_field_embedded; simpl; auto 10.
Qed.

(** ** The area index *)

Lemma map_result_length {A B} (f : A -> result B) (l : list A) (rs : list B) :
  map_result f l = Ok rs -> List.length rs = List.length l.
Proof.
  intros H; apply map_result_ok in H.
  induction H; simpl; congruence.
Qed.

Lemma contains_same (a b hay : pystr) :
  a = b -> contains a hay = true -> contains b hay = true.
Proof. now intros ->. Qed.

Lemma compact_entry_shape (r entry : value) :
  compact_entry r = Ok entry ->
  exists d title slug,
    r = VDict d
    /\ dict_find (u "title") d = Some title
    /\ dict_find (u "slug") d = Some slug
    /\ json_dumps entry
       = uq "{~title~: " ++ json_dumps title
         ++ uq ", ~slug~: " ++ json_dumps slug
         ++ uq ", ~distance~: "
         ++ json_dumps (or_none (dict_find (u "distance_km") d))
         ++ uq ", ~elevation~: "
         ++ json_dumps (or_none (dict_find (u "elevation_m") d))
         ++ uq ", ~asphalt~: "
         ++ json_dumps (or_none (dict_find (u "asphalt_pct") d))
         ++ uq ", ~gravel~: "
         ++ json_dumps (or_none (dict_find (u "gravel_pct") d)) ++ uq "}".
Proof.
  intros Hc.
  destruct (compact_entry_ok_inv _ _ Hc) as [d [title [slug [-> [Ht Hs]]]]].
  exists d, title, slug; repeat split; try assumption.
  rewrite (compact_entry_of_dict d title slug Ht Hs) in Hc.
  injection Hc as <-; apply compact_entry_text.
Qed.

(** C8: an area index that is written holds the line [const routes = [...];]
    whose list is the compact entries of the records, separated by commas:
    one entry per record, in the order of the records, and so one per
    [*.md] file of the area, each entry being the text of the six fields of
    its record.  The index is not written only when a record raises, so an
    area without route files always gets its index, with the line
    [const routes = [];]. *)
Theorem area_index_one_entry_per_route
    (area : pystr) (area_dir : list (pystr * node)) (routes : list value)
    (output_path : path) (w : written) :
  load_routes area_dir = Ok routes ->
  List.length routes = List.length (glob_md area_dir)
  /\ match generate_area_index area routes output_path w with
     | (w', Ok _) =>
         exists entries html,
           Forall2 (fun r entry =>
                      compact_entry r = Ok entry
                      /\ exists d title slug,
                           r = VDict d
                           /\ dict_find (u "title") d = Some title
                           /\ dict_find (u "slug") d = Some slug
                           /\ json_dumps entry
                              = uq "{~title~: " ++ json_dumps title
                                ++ uq ", ~slug~: " ++ json_dumps slug
                                ++ uq ", ~distance~: "
                                ++ json_dumps (or_none (dict_find (u "distance_km") d))
                                ++ uq ", ~elevation~: "
                                ++ json_dumps (or_none (dict_find (u "elevation_m") d))
                                ++ uq ", ~asphalt~: "
                                ++ json_dumps (or_none (dict_find (u "asphalt_pct") d))
                                ++ uq ", ~gravel~: "
                                ++ json_dumps (or_none (dict_find (u "gravel_pct") d))
                                ++ uq "}")
             routes entries
           /\ List.length entries = List.length (glob_md area_dir)
           /\ w' = w ++ [(output_path, html)]
           /\ html = area_index_html area (json_dumps (VList entries))
           /\ contains (nl ++ uq "    const routes = " ++ u "["
                        ++ join (u ", ") (map json_dumps entries) ++ u "]"
                        ++ uq ";" ++ nl) html = true
     | (w', Raise _) => w' = w /\ glob_md area_dir <> []
     end
  /\ (glob_md area_dir = [] ->
      exists html,
        generate_area_index area routes output_path w
        = (w ++ [(output_path, html)], Ok tt)
        /\ html = area_index_html area (u "[]")
        /\ contains (nl ++ uq "    const routes = " ++ u "[]" ++ uq ";" ++ nl)
             html = true).
Proof.
  intros Hload.
  assert (Hlen : List.length routes = List.length (glob_md area_dir)).
  { unfold load_routes in Hload; apply map_result_length in Hload.
    now rewrite Hload, (Permutation_length (sorted_perm _)). }
  split; [exact Hlen|]; rewrite generate_area_index_unfold; split.
  - destruct (map_result compact_entry routes) as [entries|e] eqn:E.
    + exists entries, (area_index_html area (json_dumps (VList entries))).
      split; [|split; [|split; [|split]]].
      * apply map_result_ok in E; revert E; apply Forall2_impl.
        intros r entry Hc; split; [exact Hc | now apply compact_entry_shape].
      * apply map_result_length in E; congruence.
      * reflexivity.
      * reflexivity.
      * apply (contains_same
                 (nl ++ uq "    const routes = " ++ json_dumps (VList entries)
                  ++ uq ";" ++ nl)); [|apply area_index_embeds_line].
        rewrite json_dumps_list; now rewrite <- !app_assoc.
    + split; [reflexivity|]; intros Hnil.
      rewrite Hnil in Hlen; destruct routes; [discriminate E | discriminate Hlen].
  - intros Hnil; rewrite Hnil in Hlen.
    destruct routes; [|discriminate Hlen].
    exists (area_index_html area (u "[]")); split; [reflexivity|].
    split; [reflexivity | apply area_index_embeds_line].
Qed.

(** ** The facts of a route page *)

Lemma route_page_html_inv (route : value) (html : pystr) :
  route_page_html route = Ok html ->
  exists d title rest,
    route = VDict d
    /\ dict_find (u "title") d = Some title
    /\ html = route_page_head title
              ++ route_facts (or_none (dict_find (u "distance_km") d))
                   (or_none (dict_find (u "elevation_m") d))
                   (or_none (dict_find (u "asphalt_pct") d))
                   (or_none (dict_find (u "gravel_pct") d))
              ++ rest.
Proof.
  unfold route_page_html, subscript.
  destruct route as [| | | | |l|d]; try discriminate.
  destruct (dict_find (u "title") d) as [title|] eqn:Et; [|discriminate].
  destruct (dict_find (u "slug") d) as [slug|]; [|discriminate].
  unfold get, get_default, get_opt; cbn [bind].
  destruct (replace_newlines _) as [description_html|]; [|discriminate].
  cbn [bind]; destruct (iterate _) as [imgs|]; [|discriminate].
  cbn [bind]; intros [= <-].
  exists d, title; eexists; split; [reflexivity|]; split; [exact Et|reflexivity].
Qed.

Lemma route_facts_lines (d : list (scalar * value)) (key label unit_ : pystr) :
  In (key, label, unit_) facts ->
  contains (fact_line label (or_none (dict_find key d)) unit_)
    (route_facts (or_none (dict_find (u "distance_km") d))
       (or_none (dict_find (u "elevation_m") d))
       (or_none (dict_find (u "asphalt_pct") d))
       (or_none (dict_find (u "gravel_pct") d))) = true.
Proof.
  unfold facts, route_facts; simpl In.
  intros [H|[H|[H|[H|[]]]]]; injection H as <- <- <-.
  - apply contains_app_l, contains_refl.
  - apply contains_app_r, contains_app_l, contains_refl.
  - apply contains_app_r, contains_app_r, contains_app_l, contains_refl.
  - apply contains_app_r, contains_app_r, contains_app_r, contains_refl.
Qed.

(** C1, as amended: a route page shows each of the four facts as Python
    prints its value, and a fact the record does not have is shown as the
    text [None]: no number is put in its place, and the line is not left
    blank. *)
Theorem absent_fact_renders_None
    (route : value) (html key label unit_ : pystr) :
  route_page_html route = Ok html ->
  In (key, label, unit_) facts ->
  get_opt route key = Ok None ->
  contains (u "      <p><strong>" ++ label ++ u ":</strong> None "
            ++ unit_ ++ u "</p>" ++ nl) html = true.
Proof.
  intros Hpage Hfact Habsent.
  destruct (route_page_html_inv _ _ Hpage) as [d [title [rest [-> [_ ->]]]]].
  injection Habsent as Habsent.
  apply contains_app_r, contains_app_l.
  pose proof (route_facts_lines d key label unit_ Hfact) as H.
  rewrite Habsent in H; unfold fact_line in H; simpl or_none in H.
  cbn [py_str py_repr] in H.
  exact H.
Qed.

(** ** Running again *)




(** *** Where the pages are written *)

Lemma split1_no_slash (s : pystr) : no_slash s -> split1 cp_slash s = [s].
Proof.
  induction 1 as [|c s Hc _ IH]; [reflexivity|].
  cbn [split1]; rewrite N.eqb_sym, Hc, IH; reflexivity.
Qed.

Lemma joinpath_plain (p : path) (s : pystr) :
  no_slash s -> is_component s = true ->
  joinpath p s = mkpath (absolute p) (parts p ++ [s]).
Proof.
  intros Hs Hc; unfold joinpath; rewrite (split1_no_slash s Hs).
  cbn [filter]; rewrite Hc.
  destruct Hs as [|c s Hc' _]; [reflexivity|].
  cbn [startswith]; now rewrite Hc'.
Qed.

Lemma html_name_plain (x : pystr) :
  no_slash x ->
  no_slash (x ++ u ".html") /\ is_component (x ++ u ".html") = true.
Proof.
  intros Hx; split.
  - apply Forall_app; split; [assumption | repeat constructor].
  - unfold is_component; destruct x as [|a [|b x]]; [reflexivity| |];
      cbn [app str_eqb]; now rewrite ?andb_false_r.
Qed.

Lemma writes_only_lift {A} (P : path -> Prop) (r : result A) :
  writes_only P (lift r).
Proof.
  intros w w' o [= <- _]; exists []; split; [now rewrite app_nil_r | constructor].
Qed.

Lemma writes_only_write (P : path -> Prop) (p : path) (text : pystr) :
  P p -> writes_only P (write_text p text).
Proof.
  intros Hp w w' o [= <- _]; exists [(p, text)]; split; [reflexivity|].
  now repeat constructor.
Qed.

Lemma writes_only_bind {A B} (P : path -> Prop) (m : io A) (k : A -> io B) :
  writes_only P m ->
  (forall a w w', m w = (w', Ok a) -> writes_only P (k a)) ->
  writes_only P (io_bind m k).
Proof.
  intros Hm Hk w w' o; unfold io_bind.
  destruct (m w) as [w1 [a|e]] eqn:E.
  - intros H; destruct (Hm _ _ _ E) as [x1 [-> Hx1]].
    destruct (Hk a _ _ E _ _ _ H) as [x2 [-> Hx2]].
    exists (x1 ++ x2); split; [now rewrite app_assoc | now apply Forall_app].
  - intros [= <- _]; exact (Hm _ _ _ E).
Qed.

Lemma writes_only_for_each {A} (P : path -> Prop) (l : list A)
    (body : A -> io unit) :
  (forall a, In a l -> writes_only P (body a)) ->
  writes_only P (for_each l body).
Proof.
  induction l as [|a l IH]; intros H; cbn [for_each].
  - intros w w' o [= <- _]; exists []; split;
      [now rewrite app_nil_r | constructor].
  - apply writes_only_bind; [apply H; now left|].
    intros _ _ _ _; apply IH; intros x Hx; apply H; now right.
Qed.





(** *** What writing a page leaves in place *)













(** ** The scenario of one area with one route *)

Lemma scenario_load_routes (text : pystr) :
  safe_load (front_matter text) = Some scenario_record ->
  load_routes [ (u "metadata", Dir [ (u "runda-1.md", File text) ]) ]
  = Ok [scenario_record].
Proof.
  intros H; unfold load_routes.
  change (sorted (glob_md [ (u "metadata", Dir [ (u "runda-1.md", File text) ]) ]))
    with [ (u "runda-1.md", File text) ].
  unfold map_result, load_file; cbn [snd]; now rewrite H.
Qed.

(** C5: the area [fryksas] with the one route file of the scenario gets a
    route page at [areas/fryksas/routes/runda-1.html] with the title, the
    two facts, an empty gallery and the link to the track, and an area
    index at [areas/fryksas/index.html] whose text holds the line
    [const routes = [...];] with the one entry, of slug [runda-1]. *)
Theorem scenario_runda_1 (text : pystr) :
  safe_load (front_matter text) = Some scenario_record ->
  let r := run_io (main (scenario_root text)) in
  outcome r = Ok tt
  /\ (exists page,
        file_at (mkpath false [u "areas"; u "fryksas"; u "routes"; u "runda-1.html"])
          (files r) = Some page
        /\ contains (u "Rundan") page = true
        /\ contains (u "55 km") page = true
        /\ contains (u "600 m") page = true
        /\ contains (u "<ul class='photo-gallery'></ul>") page = true
        /\ contains (u "<a href='../../gpx/runda-1.gpx'>") page = true)
  /\ (exists entry index,
        file_at (mkpath false [u "areas"; u "fryksas"; u "index.html"]) (files r)
        = Some index
        /\ index = area_index_html (u "fryksas") (json_dumps (VList [entry]))
        /\ subscript entry (u "slug") = Ok (VStr (u "runda-1"))
        /\ json_dumps (VList [entry])
           = uq "[{~title~: ~Rundan~, ~slug~: ~runda-1~, ~distance~: 55, ~elevation~: 600, ~asphalt~: null, ~gravel~: null}]"
        /\ contains
             (nl ++ uq "    const routes = [{~title~: ~Rundan~, ~slug~: ~runda-1~, ~distance~: 55, ~elevation~: 600, ~asphalt~: null, ~gravel~: null}];" ++ nl)
             index = true).
Proof.
  intros H r.
  assert (Hr : r = run_io (
      _ <~ generate_area_index (u "fryksas") [scenario_record]
             (mkpath false [u "areas"; u "fryksas"; u "index.html"]) ;;
      _ <~ generate_route_page (u "fryksas") scenario_record
             (mkpath false [u "areas"; u "fryksas"; u "routes"; u "runda-1.html"]) ;;
      generate_root_index [u "fryksas"] (mkpath false [u "index.html"]))).
  { subst r; unfold run_io; rewrite main_unfold.
    change (iterdir_areas (scenario_root text))
      with (Ok [ (u "fryksas",
                  Dir [ (u "metadata", Dir [ (u "runda-1.md", File text) ]) ]) ]).
    cbn [process_entries]; unfold io_bind at 1.
    rewrite process_area_unfold, (scenario_load_routes text H).
    reflexivity. }
  rewrite Hr; clear Hr H r text.
  split; [reflexivity|]; split.
  - eexists; split; [vm_compute; reflexivity|].
    repeat split; vm_compute; reflexivity.
  - exists (VDict [ (KStr (u "title"), VStr (u "Rundan"));
                    (KStr (u "slug"), VStr (u "runda-1"));
                    (KStr (u "distance"), VInt 55);
                    (KStr (u "elevation"), VInt 600);
                    (KStr (u "asphalt"), VNull);
                    (KStr (u "gravel"), VNull) ]).
    eexists; split; [|split; [reflexivity|]].
    + vm_compute; reflexivity.
    + split; [reflexivity|]; split; [vm_compute; reflexivity|].
      eapply contains_trans; [|apply area_index_embeds_line].
      vm_compute; reflexivity.
Qed.

(** * Further properties of the code *)

(** ** The string literals of the embedded data *)

Lemma hex_value_digit (n : N) : n < 16 -> hex_value (hex_digit n) = Some n.
Proof.
  intros Hn; unfold hex_value, hex_digit.
  destruct (N.ltb_spec n 10).
  - destruct (N.leb_spec 48 (48 + n)), (N.leb_spec (48 + n) 57);
      cbn [andb]; try lia.
    f_equal; lia.
  - destruct (N.leb_spec 48 (87 + n)), (N.leb_spec (87 + n) 57);
      cbn [andb]; try lia.
    destruct (N.leb_spec 97 (87 + n)), (N.leb_spec (87 + n) 102);
      cbn [andb]; try lia.
    f_equal; lia.
Qed.

Lemma read_json_escape (c : N) (rest : pystr) (t : pystr) :
  rest <> [] -> read_json_chars rest = Some t ->
  read_json_chars (json_escape c ++ rest) = Some (c :: t).
Proof.
  intros Hne Hrest; unfold json_escape.
  destruct (N.eqb_spec c 34) as [->|H34]; [cbn; now rewrite Hrest|].
  destruct (N.eqb_spec c 92) as [->|H92]; [cbn; now rewrite Hrest|].
  destruct (N.eqb_spec c 10) as [->|H10]; [cbn; now rewrite Hrest|].
  destruct (N.eqb_spec c 13) as [->|H13]; [cbn; now rewrite Hrest|].
  destruct (N.eqb_spec c 9) as [->|H9]; [cbn; now rewrite Hrest|].
  destruct (N.eqb_spec c 8) as [->|H8]; [cbn; now rewrite Hrest|].
  destruct (N.eqb_spec c 12) as [->|H12]; [cbn; now rewrite Hrest|].
  destruct (N.ltb_spec c 32) as [Hlt|Hge].
  - change (u "\u00") with [92; 117; 48; 48].
    cbn [app read_json_chars].
    change (92 =? 34) with false; change (92 =? 92) with true.
    change (117 =? 117) with true; cbv iota.
    change (hex_value 48) with (Some 0).
    rewrite !hex_value_digit, Hrest.
    + do 2 f_equal.
      pose proof (N.div_mod c 16); lia.
    + apply N.mod_lt; lia.
    + apply N.Div0.div_lt_upper_bound; lia.
  - cbn [app read_json_chars].
    rewrite (proj2 (N.eqb_neq c 34) H34), (proj2 (N.eqb_neq c 92) H92).
    rewrite (proj2 (N.ltb_ge c 32) Hge), Hrest; reflexivity.
Qed.

Lemma read_json_chars_escaped (s : pystr) :
  read_json_chars (flat_map json_escape s ++ dq) = Some s.
Proof.
  induction s as [|c s IH]; [reflexivity|].
  cbn [flat_map]; rewrite <- app_assoc.
  apply read_json_escape; [|exact IH].
  destruct (flat_map json_escape s); discriminate.
Qed.

(** X1: the string literal that [json.dumps] writes for a text reads back
    as that text, whatever quotes, backslashes, line breaks or other
    control characters it holds. *)
Theorem json_string_round_trip (s : pystr) :
  read_json_string (json_string s) = Some s.
Proof.
  unfold json_string, dq; cbn [app read_json_string].
  change (34 =? 34) with true; cbv iota.
  apply read_json_chars_escaped.
Qed.

(** ** What stripping keeps *)

Lemma dropwhile_suffix (p : N -> bool) (s : pystr) :
  exists pre, s = pre ++ dropwhile p s.
Proof.
  induction s as [|c s [pre IH]]; [now exists []|].
  cbn [dropwhile]; destruct (p c); [|now exists []].
  exists (c :: pre); cbn [app]; now f_equal.
Qed.

Lemma strip_by_substring (p : N -> bool) (s : pystr) :
  exists pre post, s = pre ++ strip_by p s ++ post.
Proof.
  unfold strip_by.
  destruct (dropwhile_suffix p s) as [pre Hpre].
  destruct (dropwhile_suffix p (rev (dropwhile p s))) as [post Hpost].
  exists pre, (rev post).
  rewrite <- rev_app_distr, <- Hpost, rev_involutive; exact Hpre.
Qed.

Lemma dropwhile_idem (p : N -> bool) (s : pystr) :
  dropwhile p (dropwhile p s) = dropwhile p s.
Proof.
  induction s as [|c s IH]; [reflexivity|].
  cbn [dropwhile]; destruct (p c) eqn:E; [exact IH|].
  cbn [dropwhile]; now rewrite E.
Qed.

Lemma dropwhile_app_stop (p : N -> bool) (l r : pystr) (c : N) :
  p c = false -> dropwhile p (l ++ c :: r) = dropwhile p l ++ c :: r.
Proof.
  intros Hc; induction l as [|x l IH]; cbn [app dropwhile].
  - now rewrite Hc.
  - destruct (p x); [exact IH | reflexivity].
Qed.

Lemma dropwhile_head (p : N -> bool) (s : pystr) :
  dropwhile p s = [] \/ exists c r, dropwhile p s = c :: r /\ p c = false.
Proof.
  induction s as [|x s IH]; [now left|].
  cbn [dropwhile]; destruct (p x) eqn:E; [exact IH|].
  right; now exists x, s.
Qed.

Lemma strip_by_idem (p : N -> bool) (s : pystr) :
  strip_by p (strip_by p s) = strip_by p s.
Proof.
  unfold strip_by.
  destruct (dropwhile_head p s) as [E|[c [r [E Hc]]]]; rewrite E.
  - reflexivity.
  - cbn [rev]; rewrite (dropwhile_app_stop p (rev r) [] c Hc).
    rewrite rev_app_distr; cbn [rev app dropwhile]; rewrite Hc.
    change (c :: rev (dropwhile p (rev r)))
      with (rev [c] ++ rev (dropwhile p (rev r))).
    rewrite <- rev_app_distr, rev_involutive.
    rewrite (dropwhile_app_stop p _ [] c Hc), dropwhile_idem.
    reflexivity.
Qed.

(** X2: the text that [load_routes] hands to the YAML loader is a piece of
    the file as it stands, cut out of it without a change inside, and it
    neither starts nor ends with white space. *)
Theorem front_matter_is_trimmed_piece (text : pystr) :
  contains (front_matter text) text = true
  /\ strip (front_matter text) = front_matter text.
Proof.
  unfold front_matter, strip, strip_dashes; split.
  - destruct (strip_by_substring isspace text) as [p1 [q1 H1]].
    destruct (startswith _ _); apply contains_spec.
    + destruct (strip_by_substring (N.eqb cp_dash) (strip_by isspace text))
        as [p2 [q2 H2]].
      destruct (strip_by_substring isspace
                  (strip_by (N.eqb cp_dash) (strip_by isspace text)))
        as [p3 [q3 H3]].
      exists (p1 ++ p2 ++ p3), (q3 ++ q2 ++ q1).
      rewrite H1 at 1; rewrite H2 at 1; rewrite H3 at 1.
      now rewrite <- !app_assoc.
    + now exists p1, q1.
  - destruct (startswith _ _); apply strip_by_idem.
Qed.

(** ** The order of the records does not depend on the enumeration *)

Lemma str_leb_antisym (a b : pystr) :
  str_leb a b = true -> str_leb b a = true -> a = b.
Proof.
  revert b; induction a as [|x a IH]; intros [|y b]; cbn [str_leb];
    try congruence.
  intros H1 H2.
  destruct (N.ltb_spec x y), (N.ltb_spec y x), (N.eqb_spec x y),
    (N.eqb_spec y x); cbn [orb andb] in *; try congruence; try lia.
  subst y; f_equal; now apply IH.
Qed.

Lemma same_name_same_entry (l : list (pystr * node)) (x y : pystr * node) :
  NoDup (map fst l) -> In x l -> In y l -> fst x = fst y -> x = y.
Proof.
  induction l as [|z l IH]; [intros _ []|].
  cbn [map]; intros Hnd Hx Hy Hxy; inversion Hnd as [|? ? Hz Hl]; subst.
  destruct Hx as [->|Hx], Hy as [->|Hy]; auto.
  - exfalso; apply Hz; rewrite Hxy; now apply in_map.
  - exfalso; apply Hz; rewrite <- Hxy; now apply in_map.
Qed.

Lemma sorted_by_name_unique (a b : list (pystr * node)) :
  StronglySorted name_le a -> StronglySorted name_le b ->
  Permutation a b -> NoDup (map fst a) -> a = b.
Proof.
  intros Ha; revert b; induction Ha as [|x a Ha IH Hx]; intros b Hb Hperm Hnd.
  - now apply Permutation_nil in Hperm.
  - destruct Hb as [|y b Hb Hy];
      [apply Permutation_sym, Permutation_nil in Hperm; discriminate|].
    assert (Hxy : x = y).
    { assert (Hyin : In y (x :: a))
        by (apply (Permutation_in _ (Permutation_sym Hperm)); now left).
      assert (Hxin : In x (y :: b))
        by (apply (Permutation_in _ Hperm); now left).
      apply (same_name_same_entry (x :: a)); auto; [now left|].
      destruct Hyin as [->|Hyin]; [reflexivity|].
      destruct Hxin as [->|Hxin]; [reflexivity|].
      apply str_leb_antisym.
      - exact (proj1 (Forall_forall _ _) Hx y Hyin).
      - exact (proj1 (Forall_forall _ _) Hy x Hxin). }
    subst y; f_equal; apply IH; auto.
    + now apply Permutation_cons_inv with x.
    + cbn [map] in Hnd; now inversion Hnd.
Qed.

(** X3: the records of an area depend on which [*.md] entries its metadata
    directory holds and not on the order in which the operating system
    enumerates them, nor on what else is in the directory: two areas whose
    [*.md] entries, of distinct names, are the same up to order load the
    same records in the same order, or raise the same exception. *)
Theorem load_routes_ignores_enumeration_order
    (area_dir1 area_dir2 : list (pystr * node)) :
  Permutation (glob_md area_dir1) (glob_md area_dir2) ->
  NoDup (map fst (glob_md area_dir1)) ->
  load_routes area_dir1 = load_routes area_dir2.
Proof.
  intros Hperm Hnd; unfold load_routes; f_equal.
  apply sorted_by_name_unique; auto using sorted_is_sorted.
  - now rewrite !sorted_perm.
  - revert Hnd; apply Permutation_NoDup, Permutation_map, Permutation_sym.
    apply sorted_perm.
Qed.

(** ** What an area writes *)

Lemma route_turn (area : pystr) (route : value) (w : written) :
  (slug <~ lift (subscript route (u "slug")) ;;
   generate_route_page area route
     (joinpath (joinpath (joinpath areas_dir area) (u "routes"))
        (py_str slug ++ u ".html"))) w
  = match route_output area route with
    | Ok page => (w ++ [page], Ok tt)
    | Raise e => (w, Raise e)
    end.
Proof.
  unfold route_output, generate_route_page, io_bind, lift, write_text.
  destruct (subscript route (u "slug")) as [slug|e]; cbn [bind]; [|reflexivity].
  now destruct (route_page_html route).
Qed.

Lemma for_each_outputs_inv {A} (f : A -> result (path * pystr))
    (body : A -> io unit) (l : list A) (w w' : written) :
  (forall a w0, body a w0 = match f a with
                            | Ok page => (w0 ++ [page], Ok tt)
                            | Raise e => (w0, Raise e)
                            end) ->
  for_each l body w = (w', Ok tt) ->
  exists pages, map_result f l = Ok pages /\ w' = w ++ pages.
Proof.
  intros Hbody; revert w; induction l as [|a l IH]; intros w;
    cbn [for_each map_result].
  - intros [= <-]; exists []; now rewrite app_nil_r.
  - unfold io_bind; rewrite Hbody.
    destruct (f a) as [page|]; [|discriminate].
    intros H; destruct (IH _ H) as [pages [-> ->]].
    exists (page :: pages); split; [reflexivity | now rewrite <- app_assoc].
Qed.

(** X4: an area that is processed to the end has loaded its files, has
    got a compact entry and a page from every record, and has written the
    area index followed by the pages of the records, one each, in the
    order of the file names, and nothing else. *)
Theorem completed_area_output
    (name : pystr) (area_dir : list (pystr * node)) (w w' : written) :
  process_area name area_dir w = (w', Ok tt) ->
  exists routes entries pages,
    load_routes area_dir = Ok routes
    /\ map_result compact_entry routes = Ok entries
    /\ Forall2 (fun r page =>
                  exists slug html,
                    subscript r (u "slug") = Ok slug
                    /\ route_page_html r = Ok html
                    /\ page = (route_path name slug, html))
         routes pages
    /\ w' = w ++ (index_path name,
                  area_index_html name (json_dumps (VList entries)))
                 :: pages.
Proof.
  rewrite process_area_unfold; cbv zeta.
  destruct (load_routes area_dir) as [routes|]; [|discriminate].
  rewrite generate_area_index_unfold.
  destruct (map_result compact_entry routes) as [entries|] eqn:Ec;
    [|discriminate].
  intros H.
  apply (for_each_outputs_inv (route_output name) _ _ _ _ (route_turn name))
    in H as [pages [Hp ->]].
  exists routes, entries, pages; repeat split; try assumption.
  - apply map_result_ok in Hp; revert Hp; apply Forall2_impl.
    intros r page; unfold route_output.
    destruct (subscript r (u "slug")) as [slug|]; cbn [bind]; [|discriminate].
    destruct (route_page_html r) as [html|]; cbn [bind]; [|discriminate].
    intros [= <-]; now exists slug, html.
  - unfold index_path; now rewrite <- app_assoc.
Qed.

(** ** Which page is on disk *)

Lemma path_eqb_refl (p : path) : path_eqb p p = true.
Proof.
  unfold path_eqb; rewrite Bool.eqb_reflx, Nat.eqb_refl; cbn [andb].
  induction (parts p) as [|x l IH]; [reflexivity|].
  cbn [combine forallb fst snd]; now rewrite str_eqb_refl.
Qed.

Lemma file_at_app (p : path) (w1 w2 : written) :
  file_at p (w1 ++ w2)
  = match file_at p w2 with
    | Some c => Some c
    | None => file_at p w1
    end.
Proof.
  induction w1 as [|[q c] w1 IH]; cbn [app file_at].
  - now destruct (file_at p w2).
  - rewrite IH; destruct (file_at p w2); [reflexivity|].
    reflexivity.
Qed.

Lemma file_at_none (p : path) (w : written) :
  Forall (fun pc => path_eqb (fst pc) p = false) w -> file_at p w = None.
Proof.
  induction 1 as [|[q c] w Hq _ IH]; [reflexivity|].
  cbn [file_at fst] in *; now rewrite IH, Hq.
Qed.

Lemma route_path_plain (name : pystr) (slug : value) :
  no_slash name -> is_component name = true -> no_slash (py_str slug) ->
  route_path name slug
  = mkpath false [u "areas"; name; u "routes"; py_str slug ++ u ".html"].
Proof.
  intros Hn Hc Hs; unfold route_path.
  destruct (html_name_plain (py_str slug) Hs) as [Hs1 Hs2].
  assert (Harea : joinpath areas_dir name = mkpath false [u "areas"; name])
    by now rewrite joinpath_plain.
  rewrite Harea, (joinpath_plain _ (py_str slug ++ u ".html")) by assumption.
  reflexivity.
Qed.

Lemma route_path_differs (name a b : pystr) :
  a <> b ->
  path_eqb (mkpath false [u "areas"; name; u "routes"; a ++ u ".html"])
    (mkpath false [u "areas"; name; u "routes"; b ++ u ".html"]) = false.
Proof.
  intros Hab; unfold path_eqb; cbn [absolute parts combine forallb fst snd].
  destruct (str_eqb (a ++ u ".html") (b ++ u ".html")) eqn:E.
  - apply str_eqb_eq, app_inv_tail in E; contradiction.
  - now rewrite !andb_false_r.
Qed.

(** X6: slugs are not checked for being unique.  When the name of the area
    and the slugs of its records are single path components, the page that
    an area processed to the end leaves at [areas/<name>/routes/<slug>.html]
    is the page of the last record, in the order of the file names, with
    this slug: a record replaces the page of every earlier record with the
    same slug. *)
Theorem last_record_wins
    (name : pystr) (area_dir : list (pystr * node)) (w w' : written)
    (before after : list value) (r slug : value) (html : pystr) :
  no_slash name -> is_component name = true ->
  process_area name area_dir w = (w', Ok tt) ->
  load_routes area_dir = Ok (before ++ r :: after) ->
  Forall (fun r' => forall s', subscript r' (u "slug") = Ok s' ->
                               no_slash (py_str s'))
    (before ++ r :: after) ->
  subscript r (u "slug") = Ok slug ->
  route_page_html r = Ok html ->
  Forall (fun r' => forall s', subscript r' (u "slug") = Ok s' ->
                               py_str s' <> py_str slug)
    after ->
  file_at (mkpath false [u "areas"; name; u "routes"; py_str slug ++ u ".html"])
    w' = Some html.
Proof.
  intros Hn Hc Hrun Hload Hplain Hslug Hpage Hafter.
  apply Forall_app in Hplain as [_ Hplain].
  inversion Hplain as [|? ? Hr Hplain']; subst.
  rewrite process_area_unfold, Hload in Hrun; cbv zeta in Hrun.
  rewrite generate_area_index_unfold in Hrun.
  destruct (map_result compact_entry (before ++ r :: after)) as [entries|];
    [|discriminate].
  apply (for_each_outputs_inv (route_output name) _ _ _ _ (route_turn name))
    in Hrun as [pages [Hp ->]].
  apply map_result_ok, Forall2_app_inv_l in Hp
    as [pages1 [pages2 [_ [H2 ->]]]].
  inversion H2 as [|? page ? pages3 Hout H3]; subst.
  unfold route_output in Hout; rewrite Hslug, Hpage in Hout; cbn [bind] in Hout.
  injection Hout as <-.
  rewrite (route_path_plain name slug Hn Hc (Hr slug Hslug)).
  rewrite file_at_app, file_at_app.
  match goal with
  | |- context [ ?x :: pages3 ] => change (x :: pages3) with ([x] ++ pages3)
  end.
  rewrite file_at_app, file_at_none.
  - cbn [file_at]; now rewrite path_eqb_refl.
  - clear - H3 Hafter Hplain' Hn Hc.
    induction H3 as [|r' page' l l' Hr' _ IH]; [constructor|].
    inversion Hafter as [|? ? Hhd Htl]; subst.
    inversion Hplain' as [|? ? Hp Hpl]; subst.
    constructor; [|auto].
    unfold route_output in Hr'.
    destruct (subscript r' (u "slug")) as [s'|]; cbn [bind] in Hr';
      [|discriminate].
    destruct (route_page_html r') as [h'|]; cbn [bind] in Hr'; [|discriminate].
    injection Hr' as <-; cbn [fst].
    rewrite (route_path_plain name s' Hn Hc (Hp s' eq_refl)).
    apply route_path_differs, Hhd; reflexivity.
Qed.

(** ** Where a run can write *)

Lemma process_area_writes_where (P : path -> Prop) (name : pystr)
    (area_dir : list (pystr * node)) :
  P (index_path name) -> (forall slug, P (route_path name slug)) ->
  writes_only P (process_area name area_dir).
Proof.
  intros Hindex Hroute; unfold process_area.
  apply writes_only_bind; [apply writes_only_lift|]; intros routes _ _ _.
  apply writes_only_bind.
  - unfold generate_area_index.
    apply writes_only_bind; [apply writes_only_lift|].
    intros entries _ _ _; now apply writes_only_write.
  - intros _ _ _ _; apply writes_only_for_each; intros r _.
    apply writes_only_bind; [apply writes_only_lift|]; intros slug _ _ _.
    unfold generate_route_page.
    apply writes_only_bind; [apply writes_only_lift|].
    intros html _ _ _; apply writes_only_write, Hroute.
Qed.

Lemma process_entries_writes_where (P : path -> Prop)
    (entries : list (pystr * node)) (areas : list pystr) :
  (forall name, P (index_path name)) ->
  (forall name slug, P (route_path name slug)) ->
  writes_only P (process_entries entries areas).
Proof.
  intros Hindex Hroute; revert areas.
  induction entries as [|[name [text|area_dir]] rest IH]; intros areas;
    cbn [process_entries].
  - intros w w' o [= <- _]; exists []; split;
      [now rewrite app_nil_r | constructor].
  - apply IH.
  - apply writes_only_bind; [now apply process_area_writes_where|].
    intros _ _ _ _; apply IH.
Qed.

Lemma joinpath_under_areas (p : path) (s : pystr) :
  under_areas p -> under_areas (joinpath p s).
Proof.
  intros Hp; unfold joinpath; destruct (startswith [cp_slash] s);
    [now left|].
  destruct Hp as [Hp|[rest Hp]]; [now left|].
  right; cbn [parts]; rewrite Hp; eexists; reflexivity.
Qed.

Lemma under_areas_not_root_index (p : path) :
  under_areas p -> path_eqb p (mkpath false [u "index.html"]) = false.
Proof.
  intros [Hp|[rest Hp]]; unfold path_eqb; cbn [absolute parts].
  - now rewrite Hp.
  - rewrite Hp; destruct rest; [|now rewrite andb_false_r].
    cbn; now rewrite andb_false_r.
Qed.

(** X7: the root index is the mark of a completed run.  When the names of
    the areas and the slugs are single path components, a run that is
    aborted has written nothing at [index.html] in the project root, and a
    run that completes leaves there the root index of the directories it
    has enumerated. *)
Theorem root_index_marks_completed_run (root entries : list (pystr * node)) :
  iterdir_areas root = Ok entries ->
  plain_names entries ->
  plain_slugs entries ->
  match outcome (run_io (main root)) with
  | Ok _ =>
      file_at (mkpath false [u "index.html"]) (files (run_io (main root)))
      = Some (root_index_html (map fst (filter is_dir entries)))
  | Raise _ =>
      file_at (mkpath false [u "index.html"]) (files (run_io (main root)))
      = None
  end.
Proof.
  intros Hroot Hnames Hslugs; unfold run_io; rewrite main_unfold, Hroot.
  destruct (process_entries entries [] []) as [w [areas|e]] eqn:E;
    cbn [outcome files].
  - apply process_entries_areas in E; cbn [app] in E; subst areas.
    rewrite file_at_app; cbn [file_at].
    change (joinpath project_root (u "index.html"))
      with (mkpath false [u "index.html"]).
    now rewrite path_eqb_refl.
  - assert (Hw : writes_only under_areas (process_entries entries [])).
    { apply process_entries_writes_where.
      - intros name; unfold index_path.
        apply joinpath_under_areas, joinpath_under_areas.
        right; now exists [].
      - intros name slug; unfold route_path.
        do 3 apply joinpath_under_areas.
        right; now exists []. }
    destruct (Hw _ _ _ E) as [extra [-> Hextra]]; cbn [app].
    apply file_at_none; revert Hextra; apply Forall_impl.
    intros [p c]; apply under_areas_not_root_index.
Qed.

Lemma html_component (x : pystr) : is_component (x ++ u ".html") = true.
Proof.
  unfold is_component; destruct x as [|a [|b x]]; [reflexivity| |];
    cbn [app str_eqb]; now rewrite ?andb_false_r.
Qed.

Lemma split1_app_last (s t : pystr) :
  no_slash t -> exists pre x, split1 cp_slash (s ++ t) = pre ++ [x ++ t].
Proof.
  intros Ht; induction s as [|a s [pre [x IH]]]; cbn [app].
  - exists [], []; now apply split1_no_slash.
  - cbn [split1]; rewrite IH; destruct (a =? cp_slash).
    + now exists ([] :: pre), x.
    + destruct pre as [|w pre]; cbn [app].
      * now exists [], (a :: x).
      * now exists ((a :: w) :: pre), x.
Qed.

Lemma joinpath_html_name (p : path) (s : pystr) :
  exists x, file_name (joinpath p (s ++ u ".html")) = x ++ u ".html".
Proof.
  destruct (split1_app_last s (u ".html")) as [pre [x H]];
    [repeat constructor|].
  exists x; unfold file_name, joinpath; rewrite H, filter_app.
  cbn [filter]; rewrite html_component.
  destruct (startswith [cp_slash] (s ++ u ".html")); cbn [parts];
    rewrite ?app_assoc; apply last_last.
Qed.

Lemma html_name_not_md (x : pystr) :
  endswith (u ".html") (x ++ u ".html") = true
  /\ endswith (u ".md") (x ++ u ".html") = false.
Proof. unfold endswith; rewrite rev_app_distr; split; reflexivity. Qed.

(** X8: whatever the metadata holds, every file that a run writes has a
    name that ends with [.html]: the generator never writes to a file that
    [load_routes] would read, and cannot overwrite its own input. *)
Theorem run_writes_html_only (root : list (pystr * node)) (p : path)
    (text : pystr) :
  In (p, text) (files (run_io (main root))) ->
  endswith (u ".html") (file_name p) = true
  /\ endswith (u ".md") (file_name p) = false.
Proof.
  assert (Hindex : forall q, file_name (joinpath q (u "index.html"))
                             = u "index" ++ u ".html").
  { intros q; unfold file_name, joinpath; cbn [parts].
    change (filter is_component (split1 cp_slash (u "index.html")))
      with [u "index.html"].
    change (startswith [cp_slash] (u "index.html")) with false; cbv iota.
    cbn [parts]; apply last_last. }
  assert (Hw : writes_only
                 (fun q => exists x, file_name q = x ++ u ".html")
                 (main root)).
  { unfold main.
    apply writes_only_bind; [apply writes_only_lift|]; intros entries _ _ _.
    apply writes_only_bind.
    - apply process_entries_writes_where.
      + intros name; exists (u "index"); apply Hindex.
      + intros name slug; apply joinpath_html_name.
    - intros areas _ _ _; apply writes_only_write.
      exists (u "index"); apply Hindex. }
  unfold run_io; destruct (main root []) as [w o] eqn:E; cbn [files].
  destruct (Hw _ _ _ E) as [extra [-> Hextra]]; cbn [app].
  intros Hin; apply (proj1 (Forall_forall _ _) Hextra) in Hin.
  destruct Hin as [x Hx]; cbn [fst] in Hx; rewrite Hx.
  apply html_name_not_md.
Qed.

(** ** The parts of a route page *)

Lemma route_page_html_parts (d : list (scalar * value)) (html : pystr) :
  route_page_html (VDict d) = Ok html ->
  exists title slug description_html imgs,
    dict_find (u "title") d = Some title
    /\ dict_find (u "slug") d = Some slug
    /\ replace_newlines (field_or d (u "description") (VStr []))
       = Ok description_html
    /\ iterate (field_or d (u "photos") (VList [])) = Ok imgs
    /\ html
       = route_page_head title
         ++ route_facts (or_none (dict_find (u "distance_km") d))
              (or_none (dict_find (u "elevation_m") d))
              (or_none (dict_find (u "asphalt_pct") d))
              (or_none (dict_find (u "gravel_pct") d))
         ++ u "    </div>" ++ nl
         ++ u "    <div id='map' style='height:400px; margin-bottom:1em;'></div>"
         ++ nl
         ++ map_script (or_none (dict_find (u "gpx_file") d))
         ++ route_page_tail description_html
              (join [] (map (photo_item title) imgs))
              (or_none (dict_find (u "gpx_file") d)).
Proof.
  unfold route_page_html, subscript.
  destruct (dict_find (u "title") d) as [title|] eqn:Et; [|discriminate].
  destruct (dict_find (u "slug") d) as [slug|] eqn:Es; [|discriminate].
  unfold get, get_default, get_opt; cbn [bind].
  fold (field_or d (u "description") (VStr [])).
  fold (field_or d (u "photos") (VList [])).
  destruct (replace_newlines _) as [description_html|] eqn:Ed; [|discriminate].
  cbn [bind]; destruct (iterate _) as [imgs|] eqn:Ei; [|discriminate].
  cbn [bind]; intros [= <-].
  exists title, slug, description_html, imgs; repeat split; assumption.
Qed.


Lemma replace1_removes (c : N) (by_ s : pystr) :
  ~ In c by_ -> ~ In c (replace1 c by_ s).
Proof.
  intros Hby Hin; unfold replace1 in Hin.
  apply in_flat_map in Hin as [x [_ Hx]]; revert Hx.
  destruct (N.eqb_spec x c) as [E|Hne]; [exact Hby|].
  intros [E|[]]; auto.
Qed.

Lemma startswith_contains (needle hay : pystr) :
  startswith needle hay = true -> contains needle hay = true.
Proof. intros H; destruct hay; cbn [contains]; now rewrite H. Qed.

Lemma startswith_app_same (a needle hay : pystr) :
  startswith needle hay = true -> startswith (a ++ needle) (a ++ hay) = true.
Proof.
  intros H; induction a as [|x a IH]; [exact H|].
  cbn [app startswith]; now rewrite N.eqb_refl.
Qed.

(** Finding a needle whose pieces are the next pieces of the text, after
    [n] pieces that are passed. *)
Ltac found_here :=
  apply startswith_contains; repeat apply startswith_app_same;
  apply startswith_app.

Tactic Notation "found_after" integer(n) :=
  do n apply contains_app_r; found_here.

(** X9: every line break of the description becomes a [<br>] in the one
    paragraph of the page, which holds no line break any more; a record
    without a description gets the empty paragraph. *)
Theorem description_line_breaks (d : list (scalar * value)) (html : pystr) :
  route_page_html (VDict d) = Ok html ->
  exists description,
    field_or d (u "description") (VStr []) = VStr description
    /\ contains (u "      <p>" ++ replace1 10 (u "<br>") description
                 ++ u "</p>" ++ nl) html = true
    /\ ~ In 10 (replace1 10 (u "<br>") description)
    /\ (dict_find (u "description") d = None -> description = []).
Proof.
  intros H.
  destruct (route_page_html_parts d html H)
    as [title [slug [dh [imgs [_ [_ [Hd [_ ->]]]]]]]].
  destruct (field_or d (u "description") (VStr [])) as [| | | |description| |]
    eqn:E; try discriminate.
  injection Hd as <-; exists description; repeat split.
  - unfold route_page_tail; found_after 9.
  - apply replace1_removes; intros [B|[B|[B|[B|[]]]]]; discriminate B.
  - intros Hnone; unfold field_or in E; rewrite Hnone in E; congruence.
Qed.


(** X11: for a record with title and slug, a description that is null (a
    key left empty in the front matter), a truth value, a number, a
    sequence or a mapping makes [generate_route_page] raise an
    [AttributeError], and photos that are null, a truth value or a number
    make it raise a [TypeError]; either way no page is written. *)
Theorem unusable_description_or_photos
    (area : pystr) (d : list (scalar * value)) (title slug : value)
    (p : path) (w : written) :
  dict_find (u "title") d = Some title ->
  dict_find (u "slug") d = Some slug ->
  (forall v, dict_find (u "description") d = Some v ->
             (v = VNull \/ (exists b, v = VBool b) \/ (exists z, v = VInt z)
              \/ (exists f, v = VFloat f) \/ (exists l, v = VList l)
              \/ (exists items, v = VDict items)) ->
             generate_route_page area (VDict d) p w = (w, Raise AttributeError))
  /\ (forall v, (exists s, field_or d (u "description") (VStr []) = VStr s) ->
                dict_find (u "photos") d = Some v ->
                (v = VNull \/ (exists b, v = VBool b) \/ (exists z, v = VInt z)
                 \/ (exists f, v = VFloat f)) ->
                generate_route_page area (VDict d) p w = (w, Raise TypeError)).
Proof.
  intros Ht Hs; split.
  - intros v Hv Hkind.
    unfold generate_route_page, io_bind, lift, route_page_html, subscript.
    rewrite Ht, Hs; unfold get, get_default, get_opt; cbn [bind]; rewrite Hv.
    destruct Hkind as [->|[[b ->]|[[z ->]|[[f ->]|[[l ->]|[items ->]]]]]];
      reflexivity.
  - intros v [s Hd] Hv Hkind.
    unfold generate_route_page, io_bind, lift, route_page_html, subscript.
    rewrite Ht, Hs; unfold get, get_default, get_opt; cbn [bind].
    fold (field_or d (u "description") (VStr [])); rewrite Hd, Hv.
    cbn [replace_newlines bind].
    destruct Hkind as [->|[[b ->]|[[z ->]|[f ->]]]]; reflexivity.
Qed.

(** X12: a fact that the record has is shown as Python prints its value:
    an integer as its decimal numeral, a text as it stands, and a field
    bound to null as [None], like a field that is not there. *)
Theorem present_fact_rendered
    (route : value) (html key label unit_ : pystr) (v : value) :
  route_page_html route = Ok html ->
  In (key, label, unit_) facts ->
  get_opt route key = Ok (Some v) ->
  contains (u "      <p><strong>" ++ label ++ u ":</strong> " ++ py_str v
            ++ u " " ++ unit_ ++ u "</p>" ++ nl) html = true
  /\ (forall z, v = VInt z -> py_str v = int_repr z)
  /\ (forall s, v = VStr s -> py_str v = s)
  /\ (v = VNull -> py_str v = u "None").
Proof.
  intros Hpage Hfact Hget; split.
  - destruct (route_page_html_inv _ _ Hpage) as [d [title [rest [-> [_ ->]]]]].
    injection Hget as Hget.
    apply contains_app_r, contains_app_l.
    pose proof (route_facts_lines d key label unit_ Hfact) as H.
    rewrite Hget in H; exact H.
  - repeat split; intros; subst; reflexivity.
Qed.

(** X13: the map and the download link of a route page point at the same
    track, [../../gpx/] followed by the [gpx_file] of the record as Python
    prints it; for a record without [gpx_file] both point at
    [../../gpx/None]. *)
Theorem track_references_agree (d : list (scalar * value)) (html : pystr) :
  route_page_html (VDict d) = Ok html ->
  let track := py_str (or_none (dict_find (u "gpx_file") d)) in
  contains (uq "      const gpxPath = '../../gpx/" ++ track ++ uq "';" ++ nl)
    html = true
  /\ contains (u "    <p><a href='../../gpx/" ++ track
               ++ u "'>Ladda ned GPX-fil</a></p>" ++ nl) html = true
  /\ (dict_find (u "gpx_file") d = None -> track = u "None").
Proof.
  intros H track.
  destruct (route_page_html_parts d html H)
    as [title [slug [dh [imgs [_ [_ [_ [_ ->]]]]]]]].
  repeat split.
  - do 6 apply contains_app_r; apply contains_app_l.
    unfold map_script; cbn [join]; fold track.
    do 11 apply contains_app_r; rewrite <- !app_assoc; found_here.
  - unfold route_page_tail; fold track.
    found_after 25.
  - intros E; subst track; now rewrite E.
Qed.

(** X14: the title goes into the page as it stands, in the [<title>] and
    in the heading, with no character of it escaped or left out. *)
Theorem title_is_not_escaped
    (d : list (scalar * value)) (html title : pystr) :
  route_page_html (VDict d) = Ok html ->
  dict_find (u "title") d = Some (VStr title) ->
  contains (u "  <title>" ++ title ++ u " – Gravelrutt</title>" ++ nl) html
  = true
  /\ contains (u "    <h1>" ++ title ++ u "</h1>" ++ nl) html = true.
Proof.
  intros H Ht.
  destruct (route_page_html_parts d html H)
    as [t [slug [dh [imgs [Ht' [_ [_ [_ ->]]]]]]]].
  rewrite Ht in Ht'; injection Ht' as <-.
  split; apply contains_app_l; unfold route_page_head; cbn [py_str].
  - found_after 8.
  - found_after 28.
Qed.

End Generator.

(** * The properties on the sample inputs *)

(** C1, as stated, fails: the record has no [distance_km], and the page
    shows [None km] where a blank fact would read [<strong>Distans:</strong>
    km]. *)
Lemma absent_fact_is_not_blank :
  get_opt Sample.route_plain (u "distance_km") = Ok None
  /\ exists html,
       route_page_html Sample.float_repr Sample.str_repr Sample.route_plain
       = Ok html
       /\ contains (u "<p><strong>Distans:</strong> None km</p>") html = true
       /\ contains (u "<p><strong>Distans:</strong>  km</p>") html = false
       /\ contains (u "<p><strong>Distans:</strong> km</p>") html = false.
Proof.
  split; [reflexivity|].
  eexists; split; [vm_compute; reflexivity|].
  repeat split; vm_compute; reflexivity.
Qed.

Lemma absent_fact_renders_None_witness :
  exists html,
    route_page_html Sample.float_repr Sample.str_repr Sample.route_plain
    = Ok html
    /\ In (u "elevation_m", u "Höjdmeter", u "m") facts
    /\ get_opt Sample.route_plain (u "elevation_m") = Ok None
    /\ contains (u "      <p><strong>" ++ u "Höjdmeter" ++ u ":</strong> None "
                 ++ u "m" ++ u "</p>" ++ nl) html = true.
Proof.
  eexists; split; [vm_compute; reflexivity|].
  split; [right; left; reflexivity|].
  split; [reflexivity|].
  apply (absent_fact_renders_None Sample.float_repr Sample.str_repr
           Sample.route_plain _ (u "elevation_m") (u "Höjdmeter") (u "m")).
  - vm_compute; reflexivity.
  - right; left; reflexivity.
  - reflexivity.
Defined.

(** A record with [distance_km: 42.5] and [elevation_m: 600]: the index
    holds [42.5], which is the double 42.5 again when read. *)
Lemma numeric_facts_embedded_as_numbers_witness :
  Sample.float_repr Sample.float_42_5 = u "42.5"
  /\ read_float (u "42.5") = Some Sample.float_42_5
  /\ exists html,
       generate_area_index Sample.float_repr Sample.capitalize (u "fryksas")
         [Sample.route_measured] (mkpath false [u "index.html"]) []
       = ([] ++ [(mkpath false [u "index.html"], html)], Ok tt)
       /\ contains
            (uq "{~title~: ~Rundan~, ~slug~: ~runda-1~, ~distance~: 42.5, ~elevation~: 600, ~asphalt~: null, ~gravel~: null}")
            html = true
       /\ read_float (json_dumps Sample.float_repr (VFloat Sample.float_42_5))
          = Some Sample.float_42_5.
Proof.
  assert (Hrepr : read_float (Sample.float_repr Sample.float_42_5)
                  = Some Sample.float_42_5) by (vm_compute; reflexivity).
  split; [vm_compute; reflexivity|]; split; [vm_compute; reflexivity|].
  destruct (numeric_facts_embedded_as_numbers Sample.float_repr
              Sample.capitalize (u "fryksas") [Sample.route_measured]
              (mkpath false [u "index.html"]) []
              (fst (generate_area_index Sample.float_repr Sample.capitalize
                      (u "fryksas") [Sample.route_measured]
                      (mkpath false [u "index.html"]) []))
              Sample.route_measured (u "distance_km") (u "distance")
              ltac:(vm_compute; reflexivity)
              ltac:(left; reflexivity)
              ltac:(left; reflexivity))
    as [d [title [slug [entry [html [Hd [Ht [Hs [_ [Hw [Hin [Htext
          [_ [_ [_ [_ Hf]]]]]]]]]]]]]]]].
  unfold Sample.route_measured in Hd; injection Hd as <-.
  vm_compute in Ht; injection Ht as <-.
  vm_compute in Hs; injection Hs as <-.
  exists html; split; [|split].
  - rewrite <- Hw; vm_compute; reflexivity.
  - rewrite Htext in Hin.
    match type of Hin with
    | contains ?x _ = true =>
        replace (uq "{~title~: ~Rundan~, ~slug~: ~runda-1~, ~distance~: 42.5, ~elevation~: 600, ~asphalt~: null, ~gravel~: null}")
          with x by (vm_compute; reflexivity)
    end.
    exact Hin.
  - exact (Hf Sample.float_42_5 eq_refl (fun _ => Hrepr)).
Defined.

(** C3, as stated, fails: a closing marker without an opening one stays in
    the text handed to the loader, and a document that ends with a dash
    loses it together with the markers. *)
Lemma front_matter_changes_document :
  front_matter (u "title: T" ++ nl ++ u "---") = u "title: T" ++ nl ++ u "---"
  /\ front_matter (u "title: T" ++ nl ++ u "---") <> u "title: T"
  /\ front_matter (u "---" ++ nl ++ u "slug: a-") = u "slug: a"
  /\ front_matter (u "---" ++ nl ++ u "slug: a-") <> u "slug: a-".
Proof.
  repeat split; try (vm_compute; reflexivity); vm_compute; discriminate.
Qed.

Lemma front_matter_strips_delimiters_witness :
  blank [] /\ blank nl /\ plain_edges (u "title: T")
  /\ front_matter ([] ++ (marker ++ nl ++ u "title: T" ++ nl ++ marker) ++ nl)
     = u "title: T"
  /\ front_matter ([] ++ (marker ++ nl ++ u "title: T") ++ nl) = u "title: T"
  /\ front_matter ([] ++ u "title: T" ++ nl) = u "title: T".
Proof.
  assert (H0 : blank []) by constructor.
  assert (H1 : blank nl) by (repeat constructor).
  assert (Hb : plain_edges (u "title: T")).
  { split.
    - exists 116, (u "itle: T"); split; reflexivity.
    - exists 84, (u "title: "); split; reflexivity. }
  destruct (front_matter_strips_delimiters Sample.safe_load
              [] nl nl nl (u "title: T") H0 H1 H1 H1 Hb) as [A [B [C _]]].
  exact (conj H0 (conj H1 (conj Hb (conj A (conj B C))))).
Defined.

Lemma load_routes_sorted_by_filename_witness :
  exists routes,
    load_routes Sample.safe_load Sample.area_fryksas = Ok routes
    /\ exists md_files,
         Permutation md_files (glob_md Sample.area_fryksas)
         /\ StronglySorted name_le md_files
         /\ Forall2 (fun md_file meta =>
                       load_file Sample.safe_load md_file = Ok meta)
              md_files routes.
Proof.
  eexists; split; [vm_compute; reflexivity|].
  apply (load_routes_sorted_by_filename Sample.safe_load Sample.area_fryksas).
  vm_compute; reflexivity.
Defined.

Lemma scenario_runda_1_witness :
  Sample.safe_load (front_matter Sample.md_text) = Some scenario_record
  /\ let r := run_io (main Sample.safe_load Sample.float_repr Sample.str_repr
                        Sample.capitalize (scenario_root Sample.md_text)) in
     outcome r = Ok tt
     /\ (exists page,
           file_at (mkpath false [u "areas"; u "fryksas"; u "routes";
                                  u "runda-1.html"]) (files r) = Some page
           /\ contains (u "Rundan") page = true
           /\ contains (u "55 km") page = true
           /\ contains (u "600 m") page = true
           /\ contains (u "<ul class='photo-gallery'></ul>") page = true
           /\ contains (u "<a href='../../gpx/runda-1.gpx'>") page = true)
     /\ (exists entry index,
           file_at (mkpath false [u "areas"; u "fryksas"; u "index.html"])
             (files r) = Some index
           /\ index = area_index_html Sample.capitalize (u "fryksas")
                        (json_dumps Sample.float_repr (VList [entry]))
           /\ subscript entry (u "slug") = Ok (VStr (u "runda-1"))
           /\ json_dumps Sample.float_repr (VList [entry])
              = uq "[{~title~: ~Rundan~, ~slug~: ~runda-1~, ~distance~: 55, ~elevation~: 600, ~asphalt~: null, ~gravel~: null}]"
           /\ contains
                (nl ++ uq "    const routes = [{~title~: ~Rundan~, ~slug~: ~runda-1~, ~distance~: 55, ~elevation~: 600, ~asphalt~: null, ~gravel~: null}];" ++ nl)
                index = true).
Proof.
  split; [vm_compute; reflexivity|].
  apply (scenario_runda_1 Sample.safe_load Sample.float_repr Sample.str_repr
           Sample.capitalize Sample.md_text).
  vm_compute; reflexivity.
Defined.

Lemma malformed_file_aborts_run_witness :
  Exists (malformed Sample.safe_load) (glob_md Sample.area_broken)
  /\ run_io (main Sample.safe_load Sample.float_repr Sample.str_repr
               Sample.capitalize Sample.root_broken)
     = mkrun
         (fst (process_entries Sample.safe_load Sample.float_repr
                 Sample.str_repr Sample.capitalize
                 [ (u "fryksas", Dir Sample.area_fryksas); (u "notes", File []) ]
                 [] []))
         (Raise YAMLError).
Proof.
  assert (Hbad : Exists (malformed Sample.safe_load) (glob_md Sample.area_broken)).
  { apply Exists_cons_hd; exists Sample.md_broken; split; reflexivity. }
  split; [exact Hbad|].
  apply (malformed_file_aborts_run Sample.safe_load Sample.float_repr
           Sample.str_repr Sample.capitalize Sample.root_broken
           [ (u "fryksas", Dir Sample.area_fryksas); (u "notes", File []) ]
           [ (u "vansbro", Dir Sample.area_empty) ]
           (u "broken") Sample.area_broken _ [u "fryksas"]).
  - reflexivity.
  - vm_compute; reflexivity.
  - repeat constructor; eexists; reflexivity.
  - exact Hbad.
Defined.


(** An area with two route files, and an area with none. *)
Lemma area_index_one_entry_per_route_witness :
  (exists routes html,
     load_routes Sample.safe_load Sample.area_fryksas = Ok routes
     /\ List.length (glob_md Sample.area_fryksas) = 2%nat
     /\ generate_area_index Sample.float_repr Sample.capitalize (u "fryksas")
          routes (mkpath false [u "areas"; u "fryksas"; u "index.html"]) []
        = ([] ++ [(mkpath false [u "areas"; u "fryksas"; u "index.html"], html)],
           Ok tt)
     /\ contains
          (nl ++ uq "    const routes = [{~title~: ~Rundan~, ~slug~: ~runda-1~, ~distance~: 55, ~elevation~: 600, ~asphalt~: null, ~gravel~: null}, {~title~: ~Sjön runt~, ~slug~: ~runda-2~, ~distance~: null, ~elevation~: null, ~asphalt~: null, ~gravel~: null}];" ++ nl)
          html = true)
  /\ load_routes Sample.safe_load Sample.area_empty = Ok []
  /\ glob_md Sample.area_empty = []
  /\ exists html,
       generate_area_index Sample.float_repr Sample.capitalize (u "vansbro") []
         (mkpath false [u "areas"; u "vansbro"; u "index.html"]) []
       = ([] ++ [(mkpath false [u "areas"; u "vansbro"; u "index.html"], html)],
          Ok tt)
       /\ html = area_index_html Sample.capitalize (u "vansbro") (u "[]")
       /\ contains (nl ++ uq "    const routes = " ++ u "[]" ++ uq ";" ++ nl)
            html = true.
Proof.
  split.
  - pose (routes := [ scenario_record;
                      VDict [ (KStr (u "slug"), VStr (u "runda-2"));
                              (KStr (u "title"), VStr (u "Sjön runt")) ] ]).
    assert (Hload : load_routes Sample.safe_load Sample.area_fryksas = Ok routes)
      by (vm_compute; reflexivity).
    destruct (area_index_one_entry_per_route Sample.safe_load Sample.float_repr
                Sample.capitalize (u "fryksas") Sample.area_fryksas routes
                (mkpath false [u "areas"; u "fryksas"; u "index.html"]) [] Hload)
      as [_ [Hm _]].
    destruct (generate_area_index Sample.float_repr Sample.capitalize
                (u "fryksas") routes
                (mkpath false [u "areas"; u "fryksas"; u "index.html"]) [])
      as [w' [[]|e]] eqn:E; [|vm_compute in E; discriminate E].
    destruct Hm as [entries [html [HF [_ [Hw [_ Hc]]]]]].
    exists routes, html; split; [exact Hload|]; split; [reflexivity|].
    split; [now rewrite <- Hw|].
    inversion HF as [|r1 e1 l1 es1 [H1 _] HF1]; subst.
    inversion HF1 as [|r2 e2 l2 es2 [H2 _] HF2]; subst.
    inversion HF2; subst.
    vm_compute in H1; injection H1 as <-.
    vm_compute in H2; injection H2 as <-.
    match type of Hc with
    | contains ?x _ = true =>
        replace (nl ++ uq "    const routes = [{~title~: ~Rundan~, ~slug~: ~runda-1~, ~distance~: 55, ~elevation~: 600, ~asphalt~: null, ~gravel~: null}, {~title~: ~Sjön runt~, ~slug~: ~runda-2~, ~distance~: null, ~elevation~: null, ~asphalt~: null, ~gravel~: null}];" ++ nl)
          with x by (vm_compute; reflexivity)
    end.
    exact Hc.
  - assert (H : load_routes Sample.safe_load Sample.area_empty = Ok [])
      by reflexivity.
    split; [exact H|]; split; [reflexivity|].
    exact (proj2 (proj2 (area_index_one_entry_per_route Sample.safe_load
                           Sample.float_repr Sample.capitalize (u "vansbro")
                           Sample.area_empty []
                           (mkpath false [u "areas"; u "vansbro"; u "index.html"])
                           [] H)) eq_refl).
Defined.

Lemma root_index_in_enumeration_order_witness :
  exists entries w,
    iterdir_areas Sample.root_two = Ok entries
    /\ run_io (main Sample.safe_load Sample.float_repr Sample.str_repr
                 Sample.capitalize Sample.root_two) = mkrun w (Ok tt)
    /\ map fst (filter is_dir entries) = [u "vansbro"; u "fryksas"]
    /\ exists w0 html,
         w = w0 ++ [(mkpath false [u "index.html"], html)]
         /\ contains
              (u "    <ul>" ++ nl
               ++ u "      <li><a href='areas/vansbro/index.html'>Vansbro</a></li>"
               ++ nl
               ++ u "      <li><a href='areas/fryksas/index.html'>Fryksas</a></li>"
               ++ nl ++ u "    </ul>" ++ nl) html = true.
Proof.
  eexists; eexists; split; [reflexivity|].
  split; [vm_compute; reflexivity|].
  split; [reflexivity|].
  destruct (root_index_in_enumeration_order Sample.safe_load Sample.float_repr
              Sample.str_repr Sample.capitalize Sample.root_two _ _
              eq_refl eq_refl) as [_ [w0 [pre [post [_ [Hw _]]]]]].
  eexists; eexists; split; [exact Hw|].
  apply contains_spec; exists pre, post.
  f_equal; vm_compute; reflexivity.
Defined.

Lemma required_fields_enforced_witness :
  ~ has_required_fields (VDict Sample.untitled)
  /\ (exists k,
        (k = u "title" \/ k = u "slug")
        /\ route_page_html Sample.float_repr Sample.str_repr
             (VDict Sample.untitled) = Raise (KeyError k))
  /\ (exists html,
        route_page_html Sample.float_repr Sample.str_repr Sample.route_plain
        = Ok html).
Proof.
  assert (H : ~ has_required_fields (VDict Sample.untitled)).
  { intros [d [t [s [E [Ht _]]]]]; injection E as <-; discriminate Ht. }
  split; [exact H|].
  destruct (required_fields_enforced Sample.safe_load Sample.float_repr
              Sample.str_repr Sample.capitalize) as [A [B _]].
  split.
  - destruct (A (VDict Sample.untitled) H) as [e [Hpage [Hkey _]]].
    destruct (Hkey Sample.untitled eq_refl) as [k [Hk ->]].
    exists k; split; assumption.
  - exact (proj2 (B (VStr (u "Rundan")) (VStr (u "runda-1")))).
Defined.

(** * The further properties on the sample inputs *)

Lemma load_routes_ignores_enumeration_order_witness :
  Permutation (glob_md Sample.area_fryksas) (glob_md sample_area_reordered)
  /\ NoDup (map fst (glob_md Sample.area_fryksas))
  /\ load_routes Sample.safe_load Sample.area_fryksas
     = load_routes Sample.safe_load sample_area_reordered.
Proof.
  assert (Hperm : Permutation (glob_md Sample.area_fryksas)
                    (glob_md sample_area_reordered)) by apply perm_swap.
  assert (Hnd : NoDup (map fst (glob_md Sample.area_fryksas))).
  { repeat constructor; cbn; intuition discriminate. }
  split; [exact Hperm|]; split; [exact Hnd|].
  exact (load_routes_ignores_enumeration_order Sample.safe_load _ _ Hperm Hnd).
Defined.

Lemma completed_area_output_witness :
  exists routes entries pages,
    load_routes Sample.safe_load Sample.area_fryksas = Ok routes
    /\ map_result compact_entry routes = Ok entries
    /\ List.length pages = 2%nat
    /\ fst (process_area Sample.safe_load Sample.float_repr Sample.str_repr
              Sample.capitalize (u "fryksas") Sample.area_fryksas [])
       = [] ++ (index_path (u "fryksas"),
                area_index_html Sample.capitalize (u "fryksas")
                  (json_dumps Sample.float_repr (VList entries)))
               :: pages.
Proof.
  destruct (completed_area_output Sample.safe_load Sample.float_repr
              Sample.str_repr Sample.capitalize (u "fryksas")
              Sample.area_fryksas []
              (fst (process_area Sample.safe_load Sample.float_repr
                      Sample.str_repr Sample.capitalize (u "fryksas")
                      Sample.area_fryksas []))
              ltac:(vm_compute; reflexivity))
    as [routes [entries [pages [Hl [Hc [Hp Hw]]]]]].
  exists routes, entries, pages; repeat split; try assumption.
  apply Forall2_length in Hp; rewrite <- Hp.
  vm_compute in Hl; injection Hl as <-; reflexivity.
Defined.

Lemma last_record_wins_witness :
  exists html,
    route_page_html Sample.float_repr Sample.str_repr
      (VDict [ (KStr (u "slug"), VStr (u "runda-2"));
               (KStr (u "title"), VStr (u "Nya")) ]) = Ok html
    /\ file_at (mkpath false [u "areas"; u "norr"; u "routes";
                              u "runda-2" ++ u ".html"])
         (fst (process_area Sample.safe_load Sample.float_repr Sample.str_repr
                 Sample.capitalize (u "norr") sample_area_same_slug []))
       = Some html.
Proof.
  eexists; split; [vm_compute; reflexivity|].
  apply (last_record_wins Sample.safe_load Sample.float_repr Sample.str_repr
           Sample.capitalize (u "norr") sample_area_same_slug [] _
           [VDict [ (KStr (u "slug"), VStr (u "runda-2"));
                    (KStr (u "title"), VStr (u "Sjön runt")) ]]
           []
           (VDict [ (KStr (u "slug"), VStr (u "runda-2"));
                    (KStr (u "title"), VStr (u "Nya")) ])
           (VStr (u "runda-2"))).
  - repeat constructor.
  - reflexivity.
  - vm_compute; reflexivity.
  - vm_compute; reflexivity.
  - repeat constructor; intros s' H; vm_compute in H; injection H as <-;
      repeat constructor.
  - reflexivity.
  - vm_compute; reflexivity.
  - constructor.
Defined.

(** A run that is aborted in its third area, and one that completes. *)
Lemma root_index_marks_completed_run_witness :
  outcome (run_io (main Sample.safe_load Sample.float_repr Sample.str_repr
                     Sample.capitalize Sample.root_broken)) = Raise YAMLError
  /\ file_at (mkpath false [u "index.html"])
       (files (run_io (main Sample.safe_load Sample.float_repr Sample.str_repr
                         Sample.capitalize Sample.root_broken))) = None
  /\ file_at (mkpath false [u "index.html"])
       (files (run_io (main Sample.safe_load Sample.float_repr Sample.str_repr
                         Sample.capitalize Sample.root_two)))
     = Some (root_index_html Sample.capitalize [u "vansbro"; u "fryksas"]).
Proof.
  assert (E1 : outcome (run_io (main Sample.safe_load Sample.float_repr
                                  Sample.str_repr Sample.capitalize
                                  Sample.root_broken)) = Raise YAMLError)
    by (vm_compute; reflexivity).
  assert (E2 : outcome (run_io (main Sample.safe_load Sample.float_repr
                                  Sample.str_repr Sample.capitalize
                                  Sample.root_two)) = Ok tt)
    by (vm_compute; reflexivity).
  split; [exact E1|]; split.
  - pose proof (root_index_marks_completed_run Sample.safe_load
                  Sample.float_repr Sample.str_repr Sample.capitalize
                  Sample.root_broken
                  [ (u "fryksas", Dir Sample.area_fryksas); (u "notes", File []);
                    (u "broken", Dir Sample.area_broken);
                    (u "vansbro", Dir Sample.area_empty) ]
                  eq_refl) as H.
    rewrite E1 in H; apply H.
    + intros name area_dir Hin.
      destruct Hin as [E|[E|[E|[E|[]]]]]; try discriminate E;
        injection E as <- <-; split; try reflexivity; repeat constructor.
    + intros name area_dir routes r slug Hin Hload Hr Hslug.
      destruct Hin as [E|[E|[E|[E|[]]]]]; try discriminate E;
        injection E as <- <-; vm_compute in Hload; try discriminate Hload;
        injection Hload as <-.
      * destruct Hr as [<-|[<-|[]]]; vm_compute in Hslug;
          injection Hslug as <-; repeat constructor.
      * destruct Hr.
  - pose proof (root_index_marks_completed_run Sample.safe_load
                  Sample.float_repr Sample.str_repr Sample.capitalize
                  Sample.root_two
                  [ (u "README.md", File (u "x"));
                    (u "vansbro", Dir Sample.area_empty);
                    (u "fryksas", Dir Sample.area_fryksas) ]
                  eq_refl) as H.
    rewrite E2 in H; apply H.
    + intros name area_dir Hin.
      destruct Hin as [E|[E|[E|[]]]]; [discriminate E| |];
        injection E as <- <-; split; try reflexivity; repeat constructor.
    + intros name area_dir routes r slug Hin Hload Hr Hslug.
      destruct Hin as [E|[E|[E|[]]]]; [discriminate E| |];
        injection E as <- <-; vm_compute in Hload; injection Hload as <-.
      * destruct Hr.
      * destruct Hr as [<-|[<-|[]]]; vm_compute in Hslug;
          injection Hslug as <-; repeat constructor.
Defined.

Lemma run_writes_html_only_witness :
  In (mkpath false [u "areas"; u "fryksas"; u "routes"; u "runda-2.html"])
    (map fst (files (run_io (main Sample.safe_load Sample.float_repr
                               Sample.str_repr Sample.capitalize
                               Sample.root_two))))
  /\ endswith (u ".md") (u "runda-2.html") = false.
Proof.
  split; [vm_compute; auto 10|].
  assert (Hin : exists text,
            In (mkpath false [u "areas"; u "fryksas"; u "routes";
                              u "runda-2.html"], text)
              (files (run_io (main Sample.safe_load Sample.float_repr
                                Sample.str_repr Sample.capitalize
                                Sample.root_two)))).
  { eexists; vm_compute; do 3 right; left; reflexivity. }
  destruct Hin as [text Hin].
  exact (proj2 (run_writes_html_only Sample.safe_load Sample.float_repr
                  Sample.str_repr Sample.capitalize Sample.root_two _ text Hin)).
Defined.

Lemma description_line_breaks_witness :
  exists html,
    route_page_html Sample.float_repr Sample.str_repr (VDict sample_route_full)
    = Ok html
    /\ contains (u "      <p>Grus.<br>Backar.</p>" ++ nl) html = true.
Proof.
  eexists; split; [vm_compute; reflexivity|].
  destruct (description_line_breaks Sample.float_repr Sample.str_repr
              sample_route_full _ ltac:(vm_compute; reflexivity))
    as [description [Hd [Hc _]]].
  injection Hd as <-; exact Hc.
Defined.


Lemma unusable_description_or_photos_witness :
  generate_route_page Sample.float_repr Sample.str_repr (u "fryksas")
    (VDict sample_route_null_description) (mkpath false [u "x.html"]) []
  = ([], Raise AttributeError)
  /\ generate_route_page Sample.float_repr Sample.str_repr (u "fryksas")
       (VDict sample_route_bad_photos) (mkpath false [u "x.html"]) []
     = ([], Raise TypeError).
Proof.
  split.
  - apply (proj1 (unusable_description_or_photos Sample.float_repr
                    Sample.str_repr (u "fryksas") sample_route_null_description
                    (VStr (u "Rundan")) (VStr (u "runda-1"))
                    (mkpath false [u "x.html"]) [] eq_refl eq_refl) VNull).
    + reflexivity.
    + left; reflexivity.
  - apply (proj2 (unusable_description_or_photos Sample.float_repr
                    Sample.str_repr (u "fryksas") sample_route_bad_photos
                    (VStr (u "Rundan")) (VStr (u "runda-1"))
                    (mkpath false [u "x.html"]) [] eq_refl eq_refl) (VInt 3)).
    + now exists [].
    + reflexivity.
    + right; right; left; now exists 3%Z.
Defined.

Lemma present_fact_rendered_witness :
  exists html,
    route_page_html Sample.float_repr Sample.str_repr (VDict sample_route_full)
    = Ok html
    /\ contains (u "      <p><strong>Distans:</strong> 55 km</p>" ++ nl) html
       = true.
Proof.
  eexists; split; [vm_compute; reflexivity|].
  exact (proj1 (present_fact_rendered Sample.float_repr Sample.str_repr
                  (VDict sample_route_full) _ (u "distance_km") (u "Distans")
                  (u "km") (VInt 55) ltac:(vm_compute; reflexivity)
                  ltac:(left; reflexivity) eq_refl)).
Defined.

Lemma track_references_agree_witness :
  exists html,
    route_page_html Sample.float_repr Sample.str_repr (VDict sample_route_full)
    = Ok html
    /\ contains (uq "      const gpxPath = '../../gpx/" ++ u "runda-1.gpx"
                 ++ uq "';" ++ nl) html = true
    /\ contains (u "    <p><a href='../../gpx/" ++ u "runda-1.gpx"
                 ++ u "'>Ladda ned GPX-fil</a></p>" ++ nl) html = true.
Proof.
  eexists; split; [vm_compute; reflexivity|].
  destruct (track_references_agree Sample.float_repr Sample.str_repr
              sample_route_full _ ltac:(vm_compute; reflexivity))
    as [H1 [H2 _]].
  split; [exact H1 | exact H2].
Defined.

Lemma title_is_not_escaped_witness :
  exists html,
    route_page_html Sample.float_repr Sample.str_repr (VDict sample_route_full)
    = Ok html
    /\ contains (u "    <h1>Rundan <1></h1>" ++ nl) html = true.
Proof.
  eexists; split; [vm_compute; reflexivity|].
  exact (proj2 (title_is_not_escaped Sample.float_repr Sample.str_repr
                  sample_route_full _ (u "Rundan <1>")
                  ltac:(vm_compute; reflexivity) eq_refl)).
Defined.
